(** * gobject-list: lifetime registry of an LD_PRELOAD object tracker

    A shallow embedding of [gobject-list.c]: the display and name filters,
    the three hash tables of [ObjectData] (live objects, added and removed
    since the last check point), the creation entry points, the
    finalization callback and the two dump signal handlers.

    Conventions of the embedding.
    - A pointer is an address in [Z]; [NULL] is [0]. [World] gives a type
      name and reference counts at every address; what the code does when
      it reads them through a pointer that is [NULL] or dangling is not part
      of the embedding.
    - What the code reads from its surroundings (the environment, the type
      name and the reference count of an object) is a field of [World];
      every operation takes the world of the moment it runs in, since the
      host program changes it between two calls.
    - The statics and globals of the file are the fields of [State]; an
      operation is a function [State -> A * State].
    - What is handed to [g_print] and [GST_ERROR] is appended to [output]
      as a [line].
    - The operations that read or write the tables hold the [gobject_list]
      lock while they do ([gst_mini_object_init] takes none and is one step
      all the same), so a run of the program is a sequence of operations;
      the hash tables are those that [get_func] allocates on its first
      call. *)

From Stdlib Require Import ZArith Ascii String.
From stdpp Require Import base option list gmap strings.

Local Open Scope string_scope.

(** ** Pointers and C strings *)

Definition NULL : Z := 0%Z.

Definition char_code (c : ascii) : Z := Z.of_nat (nat_of_ascii c).

Definition strlen (s : string) : nat := String.length s.

(** [strncmp (s1, s2, n)]: the difference of the first pair of bytes that
    differ among the first [n], the end of a string counting as byte 0;
    equal bytes that are 0 end the comparison. *)
Fixpoint strncmp (s1 s2 : string) (n : nat) : Z :=
  match n with
  | O => 0%Z
  | S n' =>
      match s1, s2 with
      | EmptyString, EmptyString => 0%Z
      | EmptyString, String c2 _ => (0 - char_code c2)%Z
      | String c1 _, EmptyString => (char_code c1 - 0)%Z
      | String c1 r1, String c2 r2 =>
          if (char_code c1 =? char_code c2)%Z
          then (if (char_code c1 =? 0)%Z then 0%Z else strncmp r1 r2 n')
          else (char_code c1 - char_code c2)%Z
      end
  end.

(** glib's [g_ascii_tolower]: only the 26 upper-case ASCII letters move. *)
Definition g_ascii_tolower (c : ascii) : Z :=
  let n := char_code c in
  if ((65 <=? n) && (n <=? 90))%Z then (n + 32)%Z else n.

(** glib's [g_ascii_strcasecmp]: walks both strings while neither is at its
    end (a 0 byte ends a C string), comparing lower-cased bytes; at the end
    of either, the difference of the two current bytes. *)
Fixpoint g_ascii_strcasecmp (s1 s2 : string) : Z :=
  match s1, s2 with
  | EmptyString, EmptyString => 0%Z
  | EmptyString, String c2 _ => (0 - char_code c2)%Z
  | String c1 _, EmptyString => (char_code c1 - 0)%Z
  | String c1 r1, String c2 r2 =>
      if ((char_code c1 =? 0) || (char_code c2 =? 0))%Z
      then (char_code c1 - char_code c2)%Z
      else if (g_ascii_tolower c1 =? g_ascii_tolower c2)%Z
           then g_ascii_strcasecmp r1 r2
           else (g_ascii_tolower c1 - g_ascii_tolower c2)%Z
  end.

(** glib's [g_strsplit (s, delim, 0)] for a one-byte delimiter: the pieces
    between the delimiters, empty pieces included; the empty string splits
    into the empty vector. [split_pieces] yields the first piece and the
    others. *)
Fixpoint split_pieces (delim : ascii) (s : string) : string * list string :=
  match s with
  | EmptyString => (EmptyString, [])
  | String c r =>
      let '(p, ps) := split_pieces delim r in
      if Ascii.eqb c delim then (EmptyString, p :: ps) else (String c p, ps)
  end.

Definition g_strsplit (s : string) (delim : ascii) : list string :=
  match s with
  | EmptyString => []
  | _ => let '(p, ps) := split_pieces delim s in p :: ps
  end.

Definition g_strv_length (v : list string) : nat := length v.

(** ** Display flags *)

Definition DISPLAY_FLAG_NONE : Z := 0.
Definition DISPLAY_FLAG_CREATE : Z := 1.
Definition DISPLAY_FLAG_REFS : Z := Z.shiftl 1 2.
Definition DISPLAY_FLAG_BACKTRACE : Z := Z.shiftl 1 3.
Definition DISPLAY_FLAG_ALL : Z :=
  Z.lor (Z.lor DISPLAY_FLAG_CREATE DISPLAY_FLAG_REFS) DISPLAY_FLAG_BACKTRACE.
Definition DISPLAY_FLAG_DEFAULT : Z := DISPLAY_FLAG_CREATE.

Record DisplayFlagsMapItem := { name : string; flag : Z }.

Definition display_flags_map : list DisplayFlagsMapItem :=
  [ {| name := "none"; flag := DISPLAY_FLAG_NONE |};
    {| name := "create"; flag := DISPLAY_FLAG_CREATE |};
    {| name := "refs"; flag := DISPLAY_FLAG_REFS |};
    {| name := "backtrace"; flag := DISPLAY_FLAG_BACKTRACE |};
    {| name := "all"; flag := DISPLAY_FLAG_ALL |} ].

(** The inner loop of [display_filter] over [display_flags_map]: the first
    entry whose name equals the token, case ignored, adds its flag, and the
    loop breaks. *)
Fixpoint scan_flags_map (token : string) (map : list DisplayFlagsMapItem)
    (display_flags : Z) : Z :=
  match map with
  | [] => display_flags
  | item :: rest =>
      if (g_ascii_strcasecmp token (name item) =? 0)%Z
      then Z.lor display_flags (flag item)
      else scan_flags_map token rest display_flags
  end.

(** The outer loop over the tokens. *)
Fixpoint scan_tokens (tokens : list string) (display_flags : Z) : Z :=
  match tokens with
  | [] => display_flags
  | token :: rest =>
      scan_tokens rest (scan_flags_map token display_flags_map display_flags)
  end.

(** ** The world the tracker observes *)

Record World := {
  g_getenv : string -> option string;
  (** [G_OBJECT_TYPE_NAME (obj)] *)
  G_OBJECT_TYPE_NAME : Z -> string;
  (** [g_type_name (GST_MINI_OBJECT_TYPE (mini_object))] *)
  GST_MINI_OBJECT_TYPE_NAME : Z -> string;
  (** [obj->ref_count], a [guint] *)
  ref_count : Z -> Z;
  (** [mini_object->refcount], a [gint] *)
  refcount : Z -> Z;
  (** [g_get_prgname ()] *)
  g_get_prgname : string;
  (** whether the build defines [HAVE_LIBUNWIND] *)
  HAVE_LIBUNWIND : bool
}.

(** ** Output *)

Inductive line :=
  | Print (text : string)
  | StillAlive (prgname : string)          (* "Still Alive in %s:" *)
  | PrintObjects (n : nat)                 (* "%u objects\n" *)
  | DumpEntry (obj : Z) (refs : Z)         (* " - %p : %u refs" *)
  | RemovedEntry (obj : Z)                 (* " - (%p)" *)
  | Finalized (obj : Z)                    (* " -- Finalized (%p)" *)
  | CreatedObject (obj : Z)                (* " ++ Created object (%p)" *)
  | CreatedMini (type_name : string) (obj : Z)   (* "Created %s(%p)" *)
  | InitMini (obj : Z)                     (* " -  create (%p)" *)
  | Reffed (obj : Z) (count : Z)            (* the count read before *)
  | Unreffed (obj : Z) (count : Z)
  | RefMini (obj : Z) (count : Z)
  | UnrefMini (obj : Z) (count : Z)
  | Banner                                 (* the line of gst_mini_object_init *)
  | Backtrace.                             (* the frames of print_trace *)

(** ** State *)

Record ObjectData := {
  (** live objects; the value is the marker [GUINT_TO_POINTER (TRUE)] *)
  objects : gmap Z unit;
  (** objects added since the last check point; same marker *)
  added : gmap Z unit;
  (** objects removed since the last check point, with a copy of the
      string naming their type *)
  removed : gmap Z string
}.

Record State := {
  (** the statics of [display_filter] *)
  display_flags : Z;
  parsed : bool;
  gobject_list_state : ObjectData;
  (** the objects [_object_finalized] was registered on as weak-reference
      callback, one element per registration, latest first *)
  weak_refs : list Z;
  output : list line
}.

Definition init_state : State :=
  {| display_flags := DISPLAY_FLAG_DEFAULT; parsed := false;
     gobject_list_state := {| objects := ∅; added := ∅; removed := ∅ |};
     weak_refs := []; output := [] |}.

(** ** A state monad for the operations *)

Definition M (A : Type) : Type := State -> A * State.

Definition ret {A} (a : A) : M A := fun s => (a, s).

Definition bind {A B} (m : M A) (k : A -> M B) : M B :=
  fun s => let '(a, s') := m s in k a s'.

Definition exec {A} (m : M A) (s : State) : State := snd (m s).

Definition eval {A} (m : M A) (s : State) : A := fst (m s).

Declare Scope tracker_scope.
Delimit Scope tracker_scope with tracker.
Notation "x <- m ;; k" := (bind m (fun x => k))
  (at level 100, m at next level, k at level 200, right associativity)
  : tracker_scope.
Notation "m ;; k" := (bind m (fun _ => k))
  (at level 100, k at level 200, right associativity) : tracker_scope.

Definition when (b : bool) (m : M unit) : M unit :=
  if b then m else ret tt.

Definition emit (l : line) : M unit :=
  fun s =>
    (tt, {| display_flags := display_flags s; parsed := parsed s;
            gobject_list_state := gobject_list_state s;
            weak_refs := weak_refs s; output := output s ++ [l] |}).

Definition emit_all (ls : list line) : M unit :=
  fun s =>
    (tt, {| display_flags := display_flags s; parsed := parsed s;
            gobject_list_state := gobject_list_state s;
            weak_refs := weak_refs s; output := output s ++ ls |}).

Definition set_display_flags (f : Z) : M unit :=
  fun s =>
    (tt, {| display_flags := f; parsed := parsed s;
            gobject_list_state := gobject_list_state s;
            weak_refs := weak_refs s; output := output s |}).

Definition set_parsed (b : bool) : M unit :=
  fun s =>
    (tt, {| display_flags := display_flags s; parsed := b;
            gobject_list_state := gobject_list_state s;
            weak_refs := weak_refs s; output := output s |}).

Definition get_display_flags : M Z := fun s => (display_flags s, s).

Definition get_parsed : M bool := fun s => (parsed s, s).

Definition get_tables : M ObjectData := fun s => (gobject_list_state s, s).

Definition set_tables (d : ObjectData) : M unit :=
  fun s =>
    (tt, {| display_flags := display_flags s; parsed := parsed s;
            gobject_list_state := d;
            weak_refs := weak_refs s; output := output s |}).

(** [g_object_weak_ref] and [gst_mini_object_weak_ref] with
    [_object_finalized] as callback. *)
Definition weak_ref (obj : Z) : M unit :=
  fun s =>
    (tt, {| display_flags := display_flags s; parsed := parsed s;
            gobject_list_state := gobject_list_state s;
            weak_refs := obj :: weak_refs s; output := output s |}).

Local Open Scope tracker_scope.

(** ** The filters *)

(** [display_filter]: parses [GOBJECT_LIST_DISPLAY] on the first call, then
    tests the requested flags against the parsed ones. *)
Definition display_filter (w : World) (flags : Z) : M bool :=
  p <- get_parsed ;;
  when (negb p)
    (match g_getenv w "GOBJECT_LIST_DISPLAY" with
     | Some display =>
         let tokens := g_strsplit display "," in
         let len := g_strv_length tokens in
         (* If there really are items to parse, clear the default flags *)
         when (0 <? len)%nat (set_display_flags 0) ;;
         f <- get_display_flags ;;
         set_display_flags (scan_tokens tokens f)
     | None => ret tt
     end ;;
     set_parsed true) ;;
  f <- get_display_flags ;;
  ret (negb (Z.land f flags =? 0)%Z).

(** A C function body as a sequence of statements, each of which returns a
    value or falls through to the next. *)
Inductive flow (A : Type) :=
  | Returned (a : A)
  | FallThrough.
Arguments Returned {A} a.
Arguments FallThrough {A}.

Definition then_stmt {A} (s1 s2 : flow A) : flow A :=
  match s1 with
  | Returned a => Returned a
  | FallThrough => s2
  end.

Definition returned {A} (default : A) (f : flow A) : A :=
  match f with
  | Returned a => a
  | FallThrough => default
  end.

(** Lines 140 to 143 of [object_filter], the [if] on [filter]. *)
Definition object_filter_match (filter : option string) (obj_name : string)
    : flow bool :=
  match filter with
  | None => Returned true
  | Some f => Returned (strncmp f obj_name (strlen f) =? 0)%Z
  end.

(** [object_filter]: the statement [return FALSE;] of line 139 comes before
    the [if] on [filter]. *)
Definition object_filter (w : World) (obj_name : string) : bool :=
  let filter := g_getenv w "GOBJECT_LIST_FILTER" in
  returned false
    (then_stmt (Returned false) (object_filter_match filter obj_name)).

(** The name filter in the words of the specification: everything matches
    when no prefix is configured, otherwise the names that start with the
    configured string. *)
Definition name_filter_spec (filter : option string) (obj_name : string)
    : bool :=
  match filter with
  | None => true
  | Some f => String.prefix f obj_name
  end.

(** ** Hash tables *)

(** The marker stored in [objects] and [added]. *)
Definition GUINT_TO_POINTER_TRUE : Z := 1.

(** [g_hash_table_lookup] on a table of markers: the marker of a key that
    is there, [NULL] for one that is not. *)
Definition g_hash_table_lookup (hash : gmap Z unit) (key : Z) : Z :=
  match hash !! key with
  | Some _ => GUINT_TO_POINTER_TRUE
  | None => NULL
  end.

Definition modify_tables (f : ObjectData -> ObjectData) : M unit :=
  d <- get_tables ;; set_tables (f d).

Definition insert_objects (obj : Z) : M unit :=
  modify_tables (fun d =>
    {| objects := <[obj := tt]> (objects d); added := added d;
       removed := removed d |}).

Definition insert_added (obj : Z) : M unit :=
  modify_tables (fun d =>
    {| objects := objects d; added := <[obj := tt]> (added d);
       removed := removed d |}).

Definition insert_removed (obj : Z) (type : string) : M unit :=
  modify_tables (fun d =>
    {| objects := objects d; added := added d;
       removed := <[obj := type]> (removed d) |}).

Definition remove_objects (obj : Z) : M unit :=
  modify_tables (fun d =>
    {| objects := delete obj (objects d); added := added d;
       removed := removed d |}).

Definition remove_added (obj : Z) : M unit :=
  modify_tables (fun d =>
    {| objects := objects d; added := delete obj (added d);
       removed := removed d |}).

Definition remove_all_added : M unit :=
  modify_tables (fun d =>
    {| objects := objects d; added := ∅; removed := removed d |}).

Definition remove_all_removed : M unit :=
  modify_tables (fun d =>
    {| objects := objects d; added := added d; removed := ∅ |}).

(** The keys of a table in the order its iterator yields them; the order
    is that of the model, and no statement below depends on which it is. *)
Definition table_keys {V} (hash : gmap Z V) : list Z :=
  (map_to_list hash).*1.

(** ** Printing *)

Definition print_trace (w : World) : M unit :=
  if HAVE_LIBUNWIND w then
    b <- display_filter w DISPLAY_FLAG_BACKTRACE ;;
    when b (emit Backtrace)
  else ret tt.

(** The loop of [_dump_object_list]: an entry whose object is [NULL] or has
    a reference count of 0 takes the [continue]. *)
Fixpoint dump_entries (w : World) (keys : list Z) : list line :=
  match keys with
  | [] => []
  | obj :: rest =>
      if ((obj =? NULL) || (ref_count w obj =? 0))%Z
      then dump_entries w rest
      else DumpEntry obj (ref_count w obj) :: dump_entries w rest
  end.

Definition _dump_object_list (w : World) (hash : gmap Z unit) : M unit :=
  emit_all (dump_entries w (table_keys hash)) ;;
  emit (PrintObjects (size hash)).

(** ** Signal handlers *)

Definition _sig_usr1_handler (w : World) : M unit :=
  emit (Print "Living Objects:") ;;
  d <- get_tables ;;
  _dump_object_list w (objects d).

Definition _sig_usr2_handler (w : World) : M unit :=
  emit (Print "Added Objects:") ;;
  d <- get_tables ;;
  _dump_object_list w (added d) ;;
  emit (Print "Removed Objects:") ;;
  emit_all (RemovedEntry <$> table_keys (removed d)) ;;
  emit (PrintObjects (size (removed d))) ;;
  remove_all_added ;;
  remove_all_removed ;;
  emit (Print "Saved new check point").

Definition print_still_alive (w : World) : M unit :=
  emit (StillAlive (g_get_prgname w)) ;;
  d <- get_tables ;;
  _dump_object_list w (objects d).

(** The handler registered with [atexit]. *)
Definition _exiting (w : World) : M unit := print_still_alive w.

(** The handler of the signals that end the process: it restores the
    default handler, dumps the live objects and raises the signal again. *)
Definition _sig_bad_handler (w : World) (sig_num : Z) : M unit :=
  print_still_alive w.

(** ** The finalization callback *)

Definition _object_finalized (w : World) (obj : Z) : M unit :=
  c <- display_filter w DISPLAY_FLAG_CREATE ;;
  when c
    (emit (Finalized obj) ;;
     print_trace w ;;
     (* Only care about the object which were already existing during last
        check point. *)
     d <- get_tables ;;
     when (g_hash_table_lookup (added d) obj =? NULL)%Z
       (insert_removed obj (G_OBJECT_TYPE_NAME w obj))) ;;
  remove_objects obj ;;
  remove_added obj.

(** ** The intercepted entry points

    The argument [obj] is the object the real function of the library has
    returned or is about to work on. *)

Definition g_object_new (w : World) (obj : Z) : M Z :=
  let obj_name := G_OBJECT_TYPE_NAME w obj in
  d <- get_tables ;;
  when ((g_hash_table_lookup (objects d) obj =? NULL)%Z
        && object_filter w obj_name)
    (c <- display_filter w DISPLAY_FLAG_CREATE ;;
     when c (emit (CreatedObject obj) ;; print_trace w) ;;
     weak_ref obj ;;
     insert_objects obj ;;
     insert_added obj) ;;
  ret obj.

Definition g_object_ref (w : World) (obj : Z) : M Z :=
  let obj_name := G_OBJECT_TYPE_NAME w obj in
  let count := ref_count w obj in
  (if object_filter w obj_name then
     r <- display_filter w DISPLAY_FLAG_REFS ;;
     when r (emit (Reffed obj count) ;; print_trace w)
   else ret tt) ;;
  ret obj.

Definition g_object_unref (w : World) (obj : Z) : M unit :=
  let obj_name := G_OBJECT_TYPE_NAME w obj in
  let count := ref_count w obj in
  if object_filter w obj_name then
    r <- display_filter w DISPLAY_FLAG_REFS ;;
    when r (emit (Unreffed obj count) ;; print_trace w)
  else ret tt.

Definition new_mini_object (w : World) (mini_object : Z) : M Z :=
  c <- display_filter w DISPLAY_FLAG_CREATE ;;
  when (c && object_filter w (GST_MINI_OBJECT_TYPE_NAME w mini_object))
    (emit (CreatedMini (GST_MINI_OBJECT_TYPE_NAME w mini_object) mini_object) ;;
     print_trace w) ;;
  weak_ref mini_object ;;
  insert_objects mini_object ;;
  insert_added mini_object ;;
  ret mini_object.

Definition gst_mini_object_init (w : World) (mini_object : Z) : M unit :=
  emit Banner ;;
  c <- display_filter w DISPLAY_FLAG_CREATE ;;
  when (c && object_filter w (GST_MINI_OBJECT_TYPE_NAME w mini_object))
    (emit (InitMini mini_object) ;;
     print_trace w ;;
     weak_ref mini_object ;;
     insert_objects mini_object ;;
     insert_added mini_object).

Definition gst_mini_object_unref (w : World) (mini_object : Z) : M unit :=
  when (object_filter w (GST_MINI_OBJECT_TYPE_NAME w mini_object))
    (r <- display_filter w DISPLAY_FLAG_REFS ;;
     when r (emit (UnrefMini mini_object (refcount w mini_object)) ;;
             print_trace w)).

Definition gst_mini_object_ref (w : World) (mini_object : Z) : M Z :=
  when (object_filter w (GST_MINI_OBJECT_TYPE_NAME w mini_object))
    (r <- display_filter w DISPLAY_FLAG_REFS ;;
     when r (emit (RefMini mini_object (refcount w mini_object)) ;;
             print_trace w)) ;;
  ret mini_object.

(** ** Runs of the tracker *)

Inductive event :=
  | E_g_object_new (obj : Z)
  | E_g_object_ref (obj : Z)
  | E_g_object_unref (obj : Z)
  | E_new_mini_object (mini_object : Z)   (* gst_buffer_new and its kin *)
  | E_gst_mini_object_init (mini_object : Z)
  | E_gst_mini_object_ref (mini_object : Z)
  | E_gst_mini_object_unref (mini_object : Z)
  | E_object_finalized (obj : Z)
  | E_sig_usr1
  | E_sig_usr2
  | E_sig_bad (sig_num : Z)
  | E_exiting.

Definition step (we : World * event) (s : State) : State :=
  let '(w, e) := we in
  match e with
  | E_g_object_new obj => exec (g_object_new w obj) s
  | E_g_object_ref obj => exec (g_object_ref w obj) s
  | E_g_object_unref obj => exec (g_object_unref w obj) s
  | E_new_mini_object m => exec (new_mini_object w m) s
  | E_gst_mini_object_init m => exec (gst_mini_object_init w m) s
  | E_gst_mini_object_ref m => exec (gst_mini_object_ref w m) s
  | E_gst_mini_object_unref m => exec (gst_mini_object_unref w m) s
  | E_object_finalized obj => exec (_object_finalized w obj) s
  | E_sig_usr1 => exec (_sig_usr1_handler w) s
  | E_sig_usr2 => exec (_sig_usr2_handler w) s
  | E_sig_bad sig_num => exec (_sig_bad_handler w sig_num) s
  | E_exiting => exec (_exiting w) s
  end.

Fixpoint run (trace : list (World * event)) (s : State) : State :=
  match trace with
  | [] => s
  | we :: rest => run rest (step we s)
  end.

(** Shorthands for the three tables of a state. *)
Definition live_set (s : State) : gmap Z unit := objects (gobject_list_state s).
Definition added_delta (s : State) : gmap Z unit := added (gobject_list_state s).
Definition removed_delta (s : State) : gmap Z string :=
  removed (gobject_list_state s).

(** ** Definitions used in the statements *)

(** Whether the parsed flags [display_flags] have a bit of [flags], the
    test at the end of [display_filter]. *)
Definition enabled (display_flags flags : Z) : bool :=
  negb (Z.land display_flags flags =? 0)%Z.

(** The three display categories, in the order creation, reference-count
    changes, backtrace. *)
Definition categories (display_flags : Z) : bool * bool * bool :=
  (enabled display_flags DISPLAY_FLAG_CREATE,
   enabled display_flags DISPLAY_FLAG_REFS,
   enabled display_flags DISPLAY_FLAG_BACKTRACE).

(** A token that some entry of [display_flags_map] matches. *)
Definition recognized (token : string) : bool :=
  existsb (fun item => (g_ascii_strcasecmp token (name item) =? 0)%Z)
    display_flags_map.

(** The flags the statics of [display_filter] hold once a call made in
    world [w] has returned, from the statics [display_flags] and [parsed]
    it finds. *)
Definition resolve_flags (w : World) (display_flags : Z) (parsed : bool) : Z :=
  if parsed then display_flags
  else match g_getenv w "GOBJECT_LIST_DISPLAY" with
       | Some display =>
           let tokens := g_strsplit display "," in
           scan_tokens tokens
             (if (0 <? g_strv_length tokens)%nat then 0%Z else display_flags)
       | None => display_flags
       end.

Definition resolved_flags (w : World) (s : State) : Z :=
  resolve_flags w (display_flags s) (parsed s).

Definition with_flags (f : Z) (s : State) : State :=
  {| display_flags := f; parsed := true;
     gobject_list_state := gobject_list_state s;
     weak_refs := weak_refs s; output := output s |}.

(** The effect of the operations on the three tables. *)
Definition record_created (obj : Z) (d : ObjectData) : ObjectData :=
  {| objects := <[obj := tt]> (objects d); added := <[obj := tt]> (added d);
     removed := removed d |}.

Definition record_finalized (create : bool) (obj : Z) (type : string)
    (d : ObjectData) : ObjectData :=
  {| objects := delete obj (objects d);
     added := delete obj (added d);
     removed := if create && bool_decide (added d !! obj = None)
                then <[obj := type]> (removed d) else removed d |}.

Definition clear_deltas (d : ObjectData) : ObjectData :=
  {| objects := objects d; added := ∅; removed := ∅ |}.

Definition tables_after (w : World) (e : event) (s : State) : ObjectData :=
  let d := gobject_list_state s in
  let create := enabled (resolved_flags w s) DISPLAY_FLAG_CREATE in
  match e with
  | E_g_object_new obj =>
      if bool_decide (objects d !! obj = None)
         && object_filter w (G_OBJECT_TYPE_NAME w obj)
      then record_created obj d else d
  | E_new_mini_object m => record_created m d
  | E_gst_mini_object_init m =>
      if create && object_filter w (GST_MINI_OBJECT_TYPE_NAME w m)
      then record_created m d else d
  | E_object_finalized obj =>
      record_finalized create obj (G_OBJECT_TYPE_NAME w obj) d
  | E_sig_usr2 => clear_deltas d
  | _ => d
  end.

(** What a check point prints for the tables [a] and [r]. *)
Definition checkpoint_report (w : World) (a : gmap Z unit) (r : gmap Z string)
    : list line :=
  [Print "Added Objects:"] ++ dump_entries w (table_keys a)
  ++ [PrintObjects (size a); Print "Removed Objects:"]
  ++ (RemovedEntry <$> table_keys r)
  ++ [PrintObjects (size r); Print "Saved new check point"].

(** An event that neither ends the check-point interval nor finalizes
    [obj]. *)
Definition within_interval (obj : Z) (e : event) : bool :=
  match e with
  | E_sig_usr2 => false
  | E_object_finalized o => negb (o =? obj)%Z
  | _ => true
  end.

(** An event that is neither a creation nor a finalization. *)
Definition no_create_finalize (e : event) : bool :=
  match e with
  | E_g_object_new _ | E_new_mini_object _ | E_gst_mini_object_init _
  | E_object_finalized _ => false
  | _ => true
  end.

(** The invariant of the registry: what was added since the last check
    point is live. *)
Definition added_is_live (d : ObjectData) : Prop :=
  dom (added d) ⊆ dom (objects d).

(** A string no byte of which is 0, as every C string is. *)
Fixpoint c_string (s : string) : bool :=
  match s with
  | EmptyString => true
  | String c r => negb (char_code c =? 0)%Z && c_string r
  end.

(** Worlds and runs for the examples. *)
Definition example_env (display filter : option string) (key : string)
    : option string :=
  if String.eqb key "GOBJECT_LIST_DISPLAY" then display
  else if String.eqb key "GOBJECT_LIST_FILTER" then filter
  else None.

(** Every object is of type [type_name]; object 7 has no reference left. *)
Definition example_world (display filter : option string) (type_name : string)
    : World :=
  {| g_getenv := example_env display filter;
     G_OBJECT_TYPE_NAME := fun _ => type_name;
     GST_MINI_OBJECT_TYPE_NAME := fun _ => type_name;
     ref_count := fun obj => if (obj =? 7)%Z then 0%Z else 1%Z;
     refcount := fun _ => 1%Z;
     g_get_prgname := "gst-launch-1.0";
     HAVE_LIBUNWIND := true |}.

Definition default_world : World := example_world None None "GstBuffer".

(** Only reference-count changes are displayed. *)
Definition refs_world : World :=
  example_world (Some "refs") None "GstBuffer".

(** The world at a later time, where the type name read from an object is
    another one. *)
Definition later_world : World := example_world None None "GstQuery".

(** Object 5 is created and survives a check point. *)
Definition survivor_state (w : World) : State :=
  run [(w, E_new_mini_object 5%Z); (w, E_sig_usr2)] init_state.

(** ** Definitions used in the further properties *)

(** The flag a token stands for: what the loop over [display_flags_map]
    adds to cleared flags. *)
Definition token_flag (token : string) : Z :=
  scan_flags_map token display_flags_map 0%Z.

(** The flags of a vector of tokens, joined. *)
Definition union_flags (tokens : list string) : Z :=
  foldr (fun token acc => Z.lor (token_flag token) acc) 0%Z tokens.

(** A line that reports a creation or a change of a reference count. *)
Definition creation_or_ref_line (l : line) : bool :=
  match l with
  | CreatedObject _ | CreatedMini _ _ | InitMini _
  | Reffed _ _ | Unreffed _ _ | RefMini _ _ | UnrefMini _ _ => true
  | _ => false
  end.

(** Flags with no bit outside [DISPLAY_FLAG_ALL]. *)
Definition within_all (display_flags : Z) : Prop :=
  Z.lor display_flags DISPLAY_FLAG_ALL = DISPLAY_FLAG_ALL.

(** Whether [obj] is live after the events of [trace], when it is [live]
    before: the last [new_mini_object] or [_object_finalized] on it
    decides. *)
Fixpoint live_after (obj : Z) (trace : list (World * event)) (live : bool)
    : bool :=
  match trace with
  | [] => live
  | (_, E_new_mini_object m) :: rest =>
      live_after obj rest (if (m =? obj)%Z then true else live)
  | (_, E_object_finalized o) :: rest =>
      live_after obj rest (if (o =? obj)%Z then false else live)
  | _ :: rest => live_after obj rest live
  end.

Definition is_new_mini_object (e : event) : bool :=
  match e with E_new_mini_object _ => true | _ => false end.

Definition is_object_finalized (e : event) : bool :=
  match e with E_object_finalized _ => true | _ => false end.

(** The events of [trace] that satisfy [p]. *)
Fixpoint count_events (p : event -> bool) (trace : list (World * event))
    : nat :=
  match trace with
  | [] => 0
  | (_, e) :: rest => (if p e then 1 else 0) + count_events p rest
  end.

(** A run in which no address is handed to [new_mini_object] while an
    object is live at it, and only live objects are finalized; [live] is
    the set of the live addresses before the run. *)
Fixpoint balanced (live : gset Z) (trace : list (World * event)) : bool :=
  match trace with
  | [] => true
  | (_, E_new_mini_object m) :: rest =>
      bool_decide (m ∉ live) && balanced ({[m]} ∪ live) rest
  | (_, E_object_finalized o) :: rest =>
      bool_decide (o ∈ live) && balanced (live ∖ {[o]}) rest
  | _ :: rest => balanced live rest
  end.

(** An event that does not concern [obj] and is no check point. *)
Definition foreign (obj : Z) (e : event) : bool :=
  match e with
  | E_new_mini_object m => negb (m =? obj)%Z
  | E_object_finalized o => negb (o =? obj)%Z
  | E_sig_usr2 => false
  | _ => true
  end.

(** An event that registers the finalization callback on [obj]. *)
Definition registers (obj : Z) (e : event) : bool :=
  match e with
  | E_new_mini_object m => (m =? obj)%Z
  | _ => false
  end.

(** An entry that the dump prints. *)
Definition printed (w : World) (obj : Z) : Prop :=
  obj <> NULL /\ ref_count w obj <> 0%Z.

Definition is_backtrace (l : line) : bool :=
  match l with Backtrace => true | _ => false end.

(** ** The process around the tracker

    [get_func] and [get_gst_func] open the libraries and look the real
    functions up; the first call of [get_func] also installs the signal
    handlers, allocates the three tables, registers [_exiting] with
    [atexit] and takes [LD_PRELOAD] out of the environment. The signals are
    the six the file names. *)

Inductive signum := SIGUSR1 | SIGUSR2 | SIGINT | SIGTERM | SIGABRT | SIGSEGV.

(** What a signal is bound to: the default action, which for each of the
    six signals ends the process; a handler of the host program; or one of
    the three handlers of the tracker. *)
Inductive sighandler :=
  | SIG_DFL
  | Handler_host
  | Handler_sig_usr1
  | Handler_sig_usr2
  | Handler_sig_bad.

(** The two calls of [g_error]. *)
Inductive fatal :=
  | Failed_to_open (library : string)
  | Failed_to_find_symbol (error : string).

Inductive process_status :=
  | Running
  | Exited
  | Killed (sig : signum)
  | Aborted (error : fatal).

(** The dynamic linker: [dlopen] yields a handle, [NULL] when it fails;
    [dlerror_after_dlsym] is what [dlerror ()] returns right after
    [dlsym (handle, name)]. *)
Record Linker := {
  dlopen : string -> Z;
  dlsym : Z -> string -> Z;
  dlerror_after_dlsym : Z -> string -> option string
}.

Record Process := {
  tracker : State;
  (** the static [handle] of [get_func] *)
  get_func_handle : Z;
  (** the static [handle] of [get_gst_func] *)
  get_gst_func_handle : Z;
  (** whether the three pointers of [gobject_list_state] are set; the
      tables of [tracker] mean nothing while they are not *)
  tables_allocated : bool;
  dispositions : signum -> sighandler;
  (** how often [_exiting] is registered with [atexit] *)
  atexit_exiting : nat;
  environ : gmap string string;
  status : process_status
}.

Definition set_status (st : process_status) (p : Process) : Process :=
  {| tracker := tracker p; get_func_handle := get_func_handle p;
     get_gst_func_handle := get_gst_func_handle p;
     tables_allocated := tables_allocated p;
     dispositions := dispositions p; atexit_exiting := atexit_exiting p;
     environ := environ p; status := st |}.

Definition set_tracker (t : State) (p : Process) : Process :=
  {| tracker := t; get_func_handle := get_func_handle p;
     get_gst_func_handle := get_gst_func_handle p;
     tables_allocated := tables_allocated p;
     dispositions := dispositions p; atexit_exiting := atexit_exiting p;
     environ := environ p; status := status p |}.

(** [signal (sig, handler)] *)
Definition signal (sig : signum) (handler : sighandler)
    (d : signum -> sighandler) : signum -> sighandler :=
  fun sig' =>
    match sig, sig' with
    | SIGUSR1, SIGUSR1 | SIGUSR2, SIGUSR2 | SIGINT, SIGINT
    | SIGTERM, SIGTERM | SIGABRT, SIGABRT | SIGSEGV, SIGSEGV => handler
    | _, _ => d sig'
    end.

(** The world the tracker reads when the process runs it: the objects and
    the build of [host], the environment of the process. *)
Definition world_of (host : World) (p : Process) : World :=
  {| g_getenv := fun key => environ p !! key;
     G_OBJECT_TYPE_NAME := G_OBJECT_TYPE_NAME host;
     GST_MINI_OBJECT_TYPE_NAME := GST_MINI_OBJECT_TYPE_NAME host;
     ref_count := ref_count host;
     refcount := refcount host;
     g_get_prgname := g_get_prgname host;
     HAVE_LIBUNWIND := HAVE_LIBUNWIND host |}.

(** The block of [get_func] that [g_once_init_enter] guards. *)
Definition get_func_init (l : Linker) (p : Process) : Process :=
  let _handle := dlopen l "libgobject-2.0.so.0" in
  if (_handle =? NULL)%Z
  then set_status (Aborted (Failed_to_open "libgobject-2.0.so.0")) p
  else
    {| (* set up objects map *)
       tracker :=
         exec (set_tables {| objects := ∅; added := ∅; removed := ∅ |})
           (tracker p);
       get_func_handle := _handle;
       get_gst_func_handle := get_gst_func_handle p;
       tables_allocated := true;
       (* set up signal handlers *)
       dispositions :=
         signal SIGSEGV Handler_sig_bad
           (signal SIGABRT Handler_sig_bad
              (signal SIGTERM Handler_sig_bad
                 (signal SIGINT Handler_sig_bad
                    (signal SIGUSR2 Handler_sig_usr2
                       (signal SIGUSR1 Handler_sig_usr1 (dispositions p))))));
       (* Set up exit handler *)
       atexit_exiting := S (atexit_exiting p);
       (* Prevent propagation to child processes. *)
       environ :=
         match environ p !! "GOBJECT_PROPAGATE_LD_PRELOAD" with
         | None => delete "LD_PRELOAD" (environ p)
         | Some _ => environ p
         end;
       status := status p |}.

(** The look-up that ends [get_func] and [get_gst_func]. *)
Definition lookup_symbol (l : Linker) (handle : Z) (func_name : string)
    (p : Process) : option Z * Process :=
  match status p with
  | Running =>
      let func := dlsym l handle func_name in
      match dlerror_after_dlsym l handle func_name with
      | Some error => (None, set_status (Aborted (Failed_to_find_symbol error)) p)
      | None => (Some func, p)
      end
  | _ => (None, p)
  end.

Definition get_func (l : Linker) (func_name : string) (p : Process)
    : option Z * Process :=
  let p1 := if (get_func_handle p =? NULL)%Z then get_func_init l p else p in
  lookup_symbol l (get_func_handle p1) func_name p1.

Definition get_gst_func_init (l : Linker) (p : Process) : Process :=
  let _handle := dlopen l "libgstreamer-1.0.so.0" in
  if (_handle =? NULL)%Z
  then set_status (Aborted (Failed_to_open "libgstreamer-1.0.so.0")) p
  else
    {| tracker := tracker p; get_func_handle := get_func_handle p;
       get_gst_func_handle := _handle;
       tables_allocated := tables_allocated p;
       dispositions := dispositions p; atexit_exiting := atexit_exiting p;
       environ := environ p; status := status p |}.

Definition get_gst_func (l : Linker) (func_name : string) (p : Process)
    : option Z * Process :=
  let p1 := if (get_gst_func_handle p =? NULL)%Z
            then get_gst_func_init l p else p in
  lookup_symbol l (get_gst_func_handle p1) func_name p1.

(** A GObject entry point as the process runs it: the look-up of the real
    function, then the body on the object the real function yields. *)
Definition call_tracker {A} (l : Linker) (host : World) (func_name : string)
    (body : World -> M A) (p : Process) : option A * Process :=
  match get_func l func_name p with
  | (Some _, p1) =>
      let '(a, t) := body (world_of host p1) (tracker p1) in
      (Some a, set_tracker t p1)
  | (None, p1) => (None, p1)
  end.

(** A signal arrives. [_sig_bad_handler] sets the default action, dumps,
    and raises the signal again, which then ends the process. *)
Definition deliver (host : World) (sig : signum) (p : Process) : Process :=
  let w := world_of host p in
  match dispositions p sig with
  | SIG_DFL => set_status (Killed sig) p
  | Handler_host => p
  | Handler_sig_usr1 => set_tracker (exec (_sig_usr1_handler w) (tracker p)) p
  | Handler_sig_usr2 => set_tracker (exec (_sig_usr2_handler w) (tracker p)) p
  | Handler_sig_bad =>
      let p1 :=
        {| tracker := exec (print_still_alive w) (tracker p);
           get_func_handle := get_func_handle p;
           get_gst_func_handle := get_gst_func_handle p;
           tables_allocated := tables_allocated p;
           dispositions := signal sig SIG_DFL (dispositions p);
           atexit_exiting := atexit_exiting p;
           environ := environ p; status := status p |} in
      set_status (Killed sig) p1
  end.

(** The process exits: the functions registered with [atexit] run. *)
Definition process_exit (host : World) (p : Process) : Process :=
  let w := world_of host p in
  set_status Exited
    (set_tracker (Nat.iter (atexit_exiting p) (exec (_exiting w)) (tracker p))
       p).

Inductive process_event :=
  | P_g_object_new (obj : Z)
  | P_g_object_ref (obj : Z)
  | P_g_object_unref (obj : Z)
  | P_get_gst_func (func_name : string)
  | P_signal (sig : signum)
  | P_exit.

(** One event of the life of the process; nothing happens once it has
    ended. *)
Definition process_step (l : Linker) (host : World) (ev : process_event)
    (p : Process) : Process :=
  match status p with
  | Running =>
      match ev with
      | P_g_object_new obj =>
          snd (call_tracker l host "g_object_new_valist"
                 (fun w => g_object_new w obj) p)
      | P_g_object_ref obj =>
          snd (call_tracker l host "g_object_ref"
                 (fun w => g_object_ref w obj) p)
      | P_g_object_unref obj =>
          snd (call_tracker l host "g_object_unref"
                 (fun w => g_object_unref w obj) p)
      | P_get_gst_func func_name => snd (get_gst_func l func_name p)
      | P_signal sig => deliver host sig p
      | P_exit => process_exit host p
      end
  | _ => p
  end.

Fixpoint process_run (l : Linker) (host : World) (evs : list process_event)
    (p : Process) : Process :=
  match evs with
  | [] => p
  | ev :: rest => process_run l host rest (process_step l host ev p)
  end.

(** A process in which no function of the tracker has run yet; the host
    may have bound the signals to handlers of its own. *)
Definition fresh_process (env : gmap string string)
    (d : signum -> sighandler) : Process :=
  {| tracker := init_state; get_func_handle := NULL;
     get_gst_func_handle := NULL; tables_allocated := false;
     dispositions := d; atexit_exiting := 0; environ := env;
     status := Running |}.

(** Whether a handler is one of the tracker's. *)
Definition tracker_handler (h : sighandler) : bool :=
  match h with
  | Handler_sig_usr1 | Handler_sig_usr2 | Handler_sig_bad => true
  | _ => false
  end.

(** The handler [get_func] binds each signal to. *)
Definition installed_handler (sig : signum) : sighandler :=
  match sig with
  | SIGUSR1 => Handler_sig_usr1
  | SIGUSR2 => Handler_sig_usr2
  | _ => Handler_sig_bad
  end.


(** A linker for the examples: it finds the two libraries and every symbol
    but one. *)
Definition example_linker : Linker :=
  {| dlopen := fun library =>
       if String.eqb library "libgobject-2.0.so.0" then 100%Z
       else if String.eqb library "libgstreamer-1.0.so.0" then 200%Z
       else NULL;
     dlsym := fun handle _ => (handle + 1)%Z;
     dlerror_after_dlsym := fun _ func_name =>
       if String.eqb func_name "no_such_function"
       then Some "undefined symbol" else None |}.

Definition example_environ : gmap string string :=
  {[ "LD_PRELOAD" := "libgobject-list.so"; "HOME" := "/root" ]}.

(** The environment after the first call of [get_func], from the one
    before. *)
Definition without_preload (env : gmap string string) : gmap string string :=
  match env !! "GOBJECT_PROPAGATE_LD_PRELOAD" with
  | None => delete "LD_PRELOAD" env
  | Some _ => env
  end.

(** The two stages of a process: before the first call of [get_func] gets
    past [dlopen], and after. *)
Definition uninitialised (env0 : gmap string string) (p : Process) : Prop :=
  tables_allocated p = false
  /\ get_func_handle p = NULL
  /\ atexit_exiting p = 0
  /\ (forall sig, tracker_handler (dispositions p sig) = false)
  /\ environ p = env0.

Definition initialised (env0 : gmap string string) (p : Process) : Prop :=
  tables_allocated p = true
  /\ get_func_handle p <> NULL
  /\ atexit_exiting p = 1
  /\ (status p = Running -> forall sig, dispositions p sig = installed_handler sig)
  /\ environ p = without_preload env0.

Definition is_gobject_call (ev : process_event) : bool :=
  match ev with
  | P_g_object_new _ | P_g_object_ref _ | P_g_object_unref _ => true
  | _ => false
  end.

(** The world [w] with other values of the two variables that configure
    the filters; the rest of the environment, the objects, the program and
    the build are those of [w]. *)
Definition with_configuration (display filter : option string) (w : World)
    : World :=
  {| g_getenv := fun key =>
       if String.eqb key "GOBJECT_LIST_DISPLAY" then display
       else if String.eqb key "GOBJECT_LIST_FILTER" then filter
       else g_getenv w key;
     G_OBJECT_TYPE_NAME := G_OBJECT_TYPE_NAME w;
     GST_MINI_OBJECT_TYPE_NAME := GST_MINI_OBJECT_TYPE_NAME w;
     ref_count := ref_count w;
     refcount := refcount w;
     g_get_prgname := g_get_prgname w;
     HAVE_LIBUNWIND := HAVE_LIBUNWIND w |}.

(** ** Signals and the lock

    The handlers of the tracker take the [gobject_list] lock, which is not
    recursive, and a handler runs in the thread the signal interrupts. The
    lock is held between the [G_LOCK] and the [G_UNLOCK] of [get_func],
    [g_object_new], [new_mini_object], [_object_finalized] and the handlers
    themselves. A signal finds it held by nobody, or by the thread it
    interrupts; the handler then waits for a lock that only the interrupted
    code could release. *)






(** * Properties *)

(** ** The name filter *)

Section NameFilter.

Lemma char_code_inj c1 c2 : char_code c1 = char_code c2 -> c1 = c2.
Proof.
  unfold char_code. intros H. apply Nat2Z.inj in H.
  rewrite <- (ascii_nat_embedding c1), <- (ascii_nat_embedding c2).
  by rewrite H.
Qed.

(** [strncmp] over the length of its first argument is the prefix test. *)
Lemma strncmp_strlen_prefix (f s : string) :
  c_string f = true ->
  (strncmp f s (strlen f) =? 0)%Z = String.prefix f s.
Proof.
  revert s. induction f as [|c f IH]; intros s Hc; simpl in *.
  - by destruct s.
  - apply andb_prop in Hc as [Hnul Hc].
    destruct s as [|c' s]; simpl.
    + apply negb_true_iff in Hnul. rewrite Z.sub_0_r. exact Hnul.
    + destruct (Z.eqb_spec (char_code c) (char_code c')) as [E|E].
      * apply char_code_inj in E. subst c'.
        apply negb_true_iff in Hnul. rewrite Hnul.
        destruct (ascii_dec c c) as [_|N]; [|done]. by apply IH.
      * destruct (ascii_dec c c') as [->|_]; [done|].
        apply Z.eqb_neq. lia.
  Qed.

(** The [if] of lines 140 to 143, were it reached, is the filter of the
    specification. *)
Lemma object_filter_match_spec (filter : option string) (obj_name : string) :
  from_option c_string true filter = true ->
  returned false (object_filter_match filter obj_name)
  = name_filter_spec filter obj_name.
Proof.
  destruct filter as [f|]; simpl; [|done].
  intros Hc. by apply strncmp_strlen_prefix.
Qed.

End NameFilter.

(** [object_filter] answers [FALSE] for every type name and every
    configuration of [GOBJECT_LIST_FILTER]: the [return FALSE;] of line 139
    runs before the test of the prefix. *)
Lemma object_filter_always_false (w : World) (obj_name : string) :
  object_filter w obj_name = false.
Proof. reflexivity. Qed.

(** C1. The name filter is to report every type name as of interest when
    no prefix is configured. With [GOBJECT_LIST_FILTER] unset and the type
    name GstBuffer, the filter of the specification answers true and
    [object_filter] answers false. *)
Theorem object_filter_unset_differs :
  g_getenv default_world "GOBJECT_LIST_FILTER" = None
  /\ name_filter_spec (g_getenv default_world "GOBJECT_LIST_FILTER") "GstBuffer"
     = true
  /\ object_filter default_world "GstBuffer" = false.
Proof. by vm_compute. Qed.

(** ** The display filter *)

Section DisplayFilter.

Context (w : World).

Lemma display_filter_run flags s :
  display_filter w flags s =
  (enabled (resolved_flags w s) flags, with_flags (resolved_flags w s) s).
Proof.
  unfold display_filter, resolved_flags, resolve_flags, enabled, with_flags,
    bind, when, get_parsed, get_display_flags, set_display_flags, set_parsed,
    ret.
  destruct s as [f p d wr out]; simpl.
  destruct p; simpl; [reflexivity|].
  destruct (g_getenv w "GOBJECT_LIST_DISPLAY") as [display|]; simpl;
    [|reflexivity].
  destruct (0 <? g_strv_length (g_strsplit display ","))%nat; reflexivity.
Qed.

Lemma print_trace_run s :
  print_trace w s =
  (tt, if HAVE_LIBUNWIND w
       then (if enabled (resolved_flags w s) DISPLAY_FLAG_BACKTRACE
             then exec (emit Backtrace) (with_flags (resolved_flags w s) s)
             else with_flags (resolved_flags w s) s)
       else s).
Proof.
  unfold print_trace. destruct (HAVE_LIBUNWIND w); [|reflexivity].
  unfold bind. rewrite display_filter_run.
  destruct (enabled _ _); reflexivity.
Qed.

(** A second call finds [parsed] set and leaves the statics alone. *)
Lemma resolved_flags_parsed f s :
  resolved_flags w (with_flags f s) = f.
Proof. reflexivity. Qed.

(** The loops. *)
Lemma scan_flags_map_no_match token map f :
  existsb (fun item => (g_ascii_strcasecmp token (name item) =? 0)%Z) map
  = false ->
  scan_flags_map token map f = f.
Proof.
  induction map as [|item map IH]; simpl; [done|].
  intros H. apply orb_false_elim in H as [Hitem Hmap].
  rewrite Hitem. by apply IH.
Qed.

Lemma scan_tokens_app ts1 ts2 f :
  scan_tokens (ts1 ++ ts2)%list f = scan_tokens ts2 (scan_tokens ts1 f).
Proof.
  revert f. induction ts1 as [|t ts1 IH]; intros f; [done|]. apply IH.
Qed.

Lemma scan_tokens_unrecognized before token after f :
  recognized token = false ->
  scan_tokens (before ++ token :: after)%list f
  = scan_tokens (before ++ after)%list f.
Proof.
  intros H. rewrite !scan_tokens_app. cbn [scan_tokens].
  by rewrite (scan_flags_map_no_match _ _ _ H).
Qed.

(** Flags stay within [DISPLAY_FLAG_ALL]. *)
Lemma scan_flags_map_within token map f :
  Forall (fun item => Z.lor (flag item) DISPLAY_FLAG_ALL = DISPLAY_FLAG_ALL)
    map ->
  Z.lor f DISPLAY_FLAG_ALL = DISPLAY_FLAG_ALL ->
  Z.lor (scan_flags_map token map f) DISPLAY_FLAG_ALL = DISPLAY_FLAG_ALL.
Proof.
  induction 1 as [|item map Hitem _ IH]; simpl; [done|].
  intros Hf. destruct (_ =? _)%Z; [|by apply IH].
  by rewrite <- Z.lor_assoc, Hitem.
Qed.

Lemma display_flags_map_within :
  Forall (fun item => Z.lor (flag item) DISPLAY_FLAG_ALL = DISPLAY_FLAG_ALL)
    display_flags_map.
Proof. repeat constructor. Qed.

Lemma scan_tokens_within ts f :
  Z.lor f DISPLAY_FLAG_ALL = DISPLAY_FLAG_ALL ->
  Z.lor (scan_tokens ts f) DISPLAY_FLAG_ALL = DISPLAY_FLAG_ALL.
Proof.
  revert f. induction ts as [|t ts IH]; cbn [scan_tokens]; [done|].
  intros f Hf. apply IH.
  by apply scan_flags_map_within; [apply display_flags_map_within|].
Qed.

(** Once all flags are set, they stay. *)
Lemma scan_flags_map_full token map :
  Forall (fun item => Z.lor DISPLAY_FLAG_ALL (flag item) = DISPLAY_FLAG_ALL)
    map ->
  scan_flags_map token map DISPLAY_FLAG_ALL = DISPLAY_FLAG_ALL.
Proof.
  induction 1 as [|item map Hitem _ IH]; simpl; [done|].
  by destruct (_ =? _)%Z.
Qed.

Lemma scan_tokens_full ts :
  scan_tokens ts DISPLAY_FLAG_ALL = DISPLAY_FLAG_ALL.
Proof.
  induction ts as [|t ts IH]; cbn [scan_tokens]; [done|].
  rewrite scan_flags_map_full; [done|]. repeat constructor.
Qed.

(** A token equal to a name, case ignored, starts with the first letter of
    the name in either case. *)
Lemma strcasecmp_first token c r :
  g_ascii_strcasecmp token (String c r) = 0%Z ->
  char_code c <> 0%Z ->
  exists c1 r1,
    token = String c1 r1 /\ g_ascii_tolower c1 = g_ascii_tolower c.
Proof.
  destruct token as [|c1 r1]; simpl; intros H Hc; [lia|].
  exists c1, r1. split; [done|].
  destruct (Z.eqb_spec (char_code c1) 0) as [E|E]; simpl in H; [lia|].
  destruct (Z.eqb_spec (char_code c) 0); simpl in H; [lia|].
  destruct (Z.eqb_spec (g_ascii_tolower c1) (g_ascii_tolower c)); [done|lia].
Qed.

Lemma strcasecmp_other_letter token c r c' r' :
  g_ascii_strcasecmp token (String c r) = 0%Z ->
  char_code c <> 0%Z -> char_code c' <> 0%Z ->
  g_ascii_tolower c <> g_ascii_tolower c' ->
  (g_ascii_strcasecmp token (String c' r') =? 0)%Z = false.
Proof.
  intros H Hc Hc' Hne. apply Z.eqb_neq. intros H'.
  destruct (strcasecmp_first _ _ _ H Hc) as (c1 & r1 & -> & E).
  destruct (strcasecmp_first _ _ _ H' Hc') as (c2 & r2 & [= <- <-] & E').
  congruence.
Qed.

Lemma scan_flags_map_all token f :
  g_ascii_strcasecmp token "all" = 0%Z ->
  scan_flags_map token display_flags_map f = Z.lor f DISPLAY_FLAG_ALL.
Proof.
  intros H. unfold display_flags_map, scan_flags_map. cbn [name flag].
  rewrite !(strcasecmp_other_letter token "a" "ll") by (done || by vm_compute).
  by rewrite H.
Qed.

Lemma scan_tokens_all tokens token f :
  token ∈ tokens ->
  g_ascii_strcasecmp token "all" = 0%Z ->
  Z.lor f DISPLAY_FLAG_ALL = DISPLAY_FLAG_ALL ->
  scan_tokens tokens f = DISPLAY_FLAG_ALL.
Proof.
  intros Hin Hall Hf.
  apply list_elem_of_split in Hin as (before & after & ->).
  rewrite scan_tokens_app. cbn [scan_tokens].
  rewrite (scan_flags_map_all _ _ Hall), (scan_tokens_within before f Hf).
  apply scan_tokens_full.
Qed.

End DisplayFilter.

(** C9. From the statics as initialised ([parsed] false, the default
    flags), a call of [display_filter] leaves in [display_flags]: exactly
    the creation category when [GOBJECT_LIST_DISPLAY] is unset; all three
    categories when one token of the comma-separated list is all, in any
    case; and the same flags as those of the list without a token that no
    name of [display_flags_map] matches. The answer is the test of the
    requested flags against these flags, and every later call, in whatever
    world, answers from the same flags and changes nothing. *)
Theorem display_filter_resolution (w : World) (s : State) (flags : Z) :
  parsed s = false ->
  display_flags s = DISPLAY_FLAG_DEFAULT ->
  let s' := exec (display_filter w flags) s in
  (g_getenv w "GOBJECT_LIST_DISPLAY" = None ->
   display_flags s' = DISPLAY_FLAG_CREATE
   /\ categories (display_flags s') = (true, false, false))
  /\ (forall display token,
        g_getenv w "GOBJECT_LIST_DISPLAY" = Some display ->
        token ∈ g_strsplit display "," ->
        g_ascii_strcasecmp token "all" = 0%Z ->
        display_flags s' = DISPLAY_FLAG_ALL
        /\ categories (display_flags s') = (true, true, true))
  /\ (forall display before token after,
        g_getenv w "GOBJECT_LIST_DISPLAY" = Some display ->
        g_strsplit display "," = (before ++ token :: after)%list ->
        recognized token = false ->
        display_flags s' = scan_tokens (before ++ after)%list 0%Z)
  /\ eval (display_filter w flags) s = enabled (display_flags s') flags
  /\ (forall w2 flags2,
        display_filter w2 flags2 s' = (enabled (display_flags s') flags2, s')).
Proof.
  intros Hparsed Hdefault s'.
  assert (Hs' : s' = with_flags (resolved_flags w s) s).
  { unfold s', exec. by rewrite display_filter_run. }
  assert (Hflags : display_flags s' = resolved_flags w s) by by rewrite Hs'.
  rewrite Hflags. clear Hflags.
  assert (Hnonempty : forall display (t : string) ts,
            g_getenv w "GOBJECT_LIST_DISPLAY" = Some display ->
            g_strsplit display "," = t :: ts ->
            resolved_flags w s = scan_tokens (t :: ts) 0%Z).
  { intros display t ts Henv Hsplit. unfold resolved_flags, resolve_flags.
    by rewrite Hparsed, Henv, Hsplit. }
  split; [|split; [|split; [|split]]].
  - intros Henv. unfold resolved_flags, resolve_flags.
  by rewrite Hparsed, Henv, Hdefault.
  - intros display token Henv Hin Hall.
    destruct (g_strsplit display ",") as [|t ts] eqn:Hsplit;
      [by apply elem_of_nil in Hin|].
    rewrite (Hnonempty _ _ _ Henv Hsplit).
    by rewrite (scan_tokens_all _ token).
  - intros display before token after Henv Hsplit Hunknown.
    destruct (g_strsplit display ",") as [|t ts] eqn:Hsplit';
      [by destruct before|].
    rewrite (Hnonempty _ _ _ Henv Hsplit'), Hsplit.
    by apply scan_tokens_unrecognized.
  - unfold eval. by rewrite display_filter_run.
  - intros w2 flags2. rewrite Hs', display_filter_run.
    by rewrite resolved_flags_parsed.
Qed.

Lemma display_filter_resolution_witness :
  categories
    (display_flags (exec (display_filter default_world 1%Z) init_state))
  = (true, false, false)
  /\ categories
       (display_flags
          (exec (display_filter (example_world (Some "refs,All") None "GstBuffer")
                   1%Z) init_state))
     = (true, true, true)
  /\ display_flags
       (exec (display_filter (example_world (Some "refs,bogus") None "GstBuffer")
                1%Z) init_state)
     = scan_tokens ["refs"] 0%Z.
Proof.
  split; [|split].
  - exact (proj2 (proj1 (display_filter_resolution default_world init_state 1%Z
                           eq_refl eq_refl) eq_refl)).
  - refine (proj2 (proj1 (proj2 (display_filter_resolution
             (example_world (Some "refs,All") None "GstBuffer") init_state 1%Z
             eq_refl eq_refl)) "refs,All" "All" eq_refl _ eq_refl)).
    vm_compute. apply list_elem_of_further, list_elem_of_here.
  - exact (proj1 (proj2 (proj2 (display_filter_resolution
             (example_world (Some "refs,bogus") None "GstBuffer") init_state
             1%Z eq_refl eq_refl)))
             "refs,bogus" ["refs"] "bogus" [] eq_refl eq_refl eq_refl).
Defined.


(** ** The registry *)

(** *** The three tables *)

Section Tables.

Implicit Types (d : ObjectData) (obj : Z).

(** The test of a lookup against [NULL] is the test of absence. *)
Lemma lookup_is_null (hash : gmap Z unit) key :
  (g_hash_table_lookup hash key =? NULL)%Z
  = bool_decide (hash !! key = None).
Proof. unfold g_hash_table_lookup. by destruct (hash !! key). Qed.

Lemma table_keys_elem {V} (hash : gmap Z V) key :
  key ∈ table_keys hash <-> is_Some (hash !! key).
Proof.
  unfold table_keys. rewrite list_elem_of_fmap. split.
  - intros ([k v] & -> & Hin). apply elem_of_map_to_list in Hin. by exists v.
  - intros [v Hv]. exists (key, v). split; [done|].
    by apply elem_of_map_to_list.
Qed.

(** The invariant under the three updates. *)
Lemma record_created_added_is_live obj d :
  added_is_live d -> added_is_live (record_created obj d).
Proof.
  unfold added_is_live, record_created. cbn [objects added].
  rewrite !dom_insert_L. intros Hinv k. rewrite !elem_of_union.
  intros [Hk|Hk]; [by left | right; by apply Hinv].
Qed.

Lemma record_finalized_added_is_live create obj type d :
  added_is_live d -> added_is_live (record_finalized create obj type d).
Proof.
  unfold added_is_live, record_finalized. cbn [objects added].
  rewrite !dom_delete_L. intros Hinv k. rewrite !elem_of_difference.
  intros [Hk Hne]. split; [by apply Hinv | done].
Qed.

Lemma clear_deltas_added_is_live d : added_is_live (clear_deltas d).
Proof.
  unfold added_is_live, clear_deltas. cbn [objects added].
  rewrite dom_empty_L. intros k Hk. by apply elem_of_empty in Hk.
Qed.

(** A key that an update adds to [added] is a key of [objects]. *)
Lemma record_created_new_added obj d :
  dom (added (record_created obj d)) ∖ dom (added d)
  ⊆ dom (objects (record_created obj d)).
Proof.
  unfold record_created. cbn [objects added]. rewrite !dom_insert_L.
  intros k. rewrite elem_of_difference, !elem_of_union.
  intros [[Hk|Hk] Hnew]; [by left | done].
Qed.

Lemma no_new_added (a a' o : gmap Z unit) :
  dom a' ⊆ dom a -> dom a' ∖ dom a ⊆ dom o.
Proof.
  intros Hsub k. rewrite elem_of_difference. intros [Hk Hnew].
  destruct Hnew. by apply Hsub.
Qed.

Lemma record_created_keeps_added obj other d :
  added d !! obj = Some tt -> added (record_created other d) !! obj = Some tt.
Proof.
  intros Hadded. unfold record_created. cbn [added].
  destruct (decide (other = obj)) as [->|Hne];
    [apply lookup_insert_eq | by rewrite lookup_insert_ne].
Qed.

End Tables.

(** *** One operation *)

Lemma resolve_flags_parsed w f : resolve_flags w f true = f.
Proof. reflexivity. Qed.

(** Running an operation on a state given by its fields: the operations are
    unfolded call by value, the calls of [display_filter] and [print_trace]
    are replaced by their results, and the tests are split. *)
Ltac open_ops :=
  cbv beta iota zeta delta
    [step exec eval _object_finalized g_object_new g_object_ref
     g_object_unref new_mini_object gst_mini_object_init
     gst_mini_object_ref gst_mini_object_unref _sig_usr1_handler
     _sig_usr2_handler _sig_bad_handler _exiting print_still_alive
     _dump_object_list insert_objects insert_added
     insert_removed remove_objects remove_added remove_all_added
     remove_all_removed modify_tables get_tables set_tables weak_ref
     emit emit_all when bind ret fst snd
     gobject_list_state weak_refs output display_flags parsed
     objects added removed with_flags resolved_flags
     live_set added_delta removed_delta
     tables_after record_created record_finalized clear_deltas].

Ltac run_ops :=
  repeat first
    [ rewrite display_filter_run
    | rewrite print_trace_run
    | rewrite resolve_flags_parsed
    | rewrite lookup_is_null
    | progress open_ops
    | match goal with
      | |- context [if ?b then _ else _] => destruct b eqn:?
      end ].

(** Closes the goals on the tables after [run_ops]: the two sides are the
    same record, or the tests that were split contradict each other. *)
Ltac same_tables := first [reflexivity | simpl in *; congruence].

Section Step.

Context (w : World).

Implicit Types (s : State) (e : event) (obj : Z).

(** The tables after one operation. *)
Lemma step_tables e s :
  gobject_list_state (step (w, e) s) = tables_after w e s.
Proof.
  destruct s as [f p [o a r] refs out]. destruct e; run_ops; same_tables.
Qed.

Lemma object_finalized_tables obj s :
  gobject_list_state (exec (_object_finalized w obj) s)
  = record_finalized (enabled (resolved_flags w s) DISPLAY_FLAG_CREATE) obj
      (G_OBJECT_TYPE_NAME w obj) (gobject_list_state s).
Proof. destruct s as [f p [o a r] refs out]. run_ops; same_tables. Qed.

Lemma new_mini_object_tables obj s :
  gobject_list_state (exec (new_mini_object w obj) s)
  = record_created obj (gobject_list_state s).
Proof. destruct s as [f p [o a r] refs out]. run_ops; same_tables. Qed.

Lemma sig_usr2_tables s :
  gobject_list_state (exec (_sig_usr2_handler w) s)
  = clear_deltas (gobject_list_state s).
Proof. destruct s as [f p [o a r] refs out]. run_ops; same_tables. Qed.

(** [new_mini_object] registers the callback whatever the state. *)
Lemma new_mini_object_weak_refs obj s :
  weak_refs (exec (new_mini_object w obj) s) = obj :: weak_refs s.
Proof. destruct s as [f p [o a r] refs out]. by run_ops. Qed.

(** [new_mini_object] records the object whatever the state. *)
Lemma new_mini_object_recorded obj s :
  let s' := exec (new_mini_object w obj) s in
  live_set s' !! obj = Some tt /\ added_delta s' !! obj = Some tt.
Proof.
  unfold live_set, added_delta. cbn zeta. rewrite new_mini_object_tables.
  unfold record_created. cbn [objects added].
  by rewrite !lookup_insert_eq.
Qed.

(** [g_object_new] on an object that is in [objects] changes nothing. *)
Lemma g_object_new_present obj s :
  is_Some (live_set s !! obj) -> g_object_new w obj s = (obj, s).
Proof.
  intros [[] Hlive]. unfold g_object_new, bind, get_tables, when, ret.
  cbn beta. rewrite lookup_is_null.
  unfold live_set in Hlive. rewrite Hlive.
  by rewrite bool_decide_eq_false_2.
Qed.

(** The output of the dumps. *)
Lemma dump_object_list_output hash s :
  output (exec (_dump_object_list w hash) s)
  = (output s ++ dump_entries w (table_keys hash)
     ++ [PrintObjects (size hash)])%list.
Proof.
  destruct s as [f p [o a r] refs out]. open_ops. by rewrite <- app_assoc.
Qed.

Lemma sig_usr1_output s :
  output (exec (_sig_usr1_handler w) s)
  = (output s ++ [Print "Living Objects:"]
     ++ dump_entries w (table_keys (live_set s))
     ++ [PrintObjects (size (live_set s))])%list.
Proof.
  destruct s as [f p [o a r] refs out]. open_ops. by rewrite <- !app_assoc.
Qed.

Lemma print_still_alive_output s :
  output (exec (print_still_alive w) s)
  = (output s ++ [StillAlive (g_get_prgname w)]
     ++ dump_entries w (table_keys (live_set s))
     ++ [PrintObjects (size (live_set s))])%list.
Proof.
  destruct s as [f p [o a r] refs out]. open_ops. by rewrite <- !app_assoc.
Qed.

Lemma sig_usr2_output s :
  output (exec (_sig_usr2_handler w) s)
  = (output s ++ checkpoint_report w (added_delta s) (removed_delta s))%list.
Proof.
  destruct s as [f p [o a r] refs out]. open_ops. unfold checkpoint_report.
  by rewrite <- !app_assoc.
Qed.

Lemma dump_entries_app keys1 keys2 :
  dump_entries w (keys1 ++ keys2)%list
  = (dump_entries w keys1 ++ dump_entries w keys2)%list.
Proof.
  induction keys1 as [|obj keys1 IH]; simpl; [done|].
  destruct (_ || _); simpl; by rewrite IH.
Qed.

Lemma dump_entries_elem keys obj refs :
  DumpEntry obj refs ∈ dump_entries w keys
  <-> obj ∈ keys /\ obj <> NULL /\ ref_count w obj <> 0%Z
      /\ refs = ref_count w obj.
Proof.
  induction keys as [|k keys IH]; simpl.
  - split; [by intros ?%elem_of_nil | by intros [?%elem_of_nil _]].
  - destruct (Z.eqb_spec k NULL) as [Hk|Hk]; simpl;
      [|destruct (Z.eqb_spec (ref_count w k) 0) as [Hr|Hr]].
    + rewrite IH, elem_of_cons. split; [tauto|].
      intros [[->|Hin] (Hnull & Hrefs & ->)]; tauto.
    + rewrite IH, elem_of_cons. split; [tauto|].
      intros [[->|Hin] (Hnull & Hrefs & ->)]; tauto.
    + rewrite !elem_of_cons, IH. split.
      * intros [[= -> ->]|H]; tauto.
      * intros [[->|Hin] (Hnull & Hrefs & ->)]; tauto.
Qed.

Lemma dump_entries_lines keys l :
  l ∈ dump_entries w keys -> exists obj refs, l = DumpEntry obj refs.
Proof.
  induction keys as [|k keys IH]; simpl; [by intros ?%elem_of_nil|].
  destruct (_ || _); [done|]. intros [->|?]%elem_of_cons; eauto.
Qed.

(** The lines of a check point: one per removed object, and one per added
    object that the dump does not skip. *)
Lemma checkpoint_report_removed a r obj :
  RemovedEntry obj ∈ checkpoint_report w a r <-> is_Some (r !! obj).
Proof.
  unfold checkpoint_report.
  rewrite !elem_of_app, !elem_of_cons, list_elem_of_fmap.
  rewrite <- table_keys_elem. split.
  - intros H. destruct_or!; try done; try (by apply elem_of_nil in H).
    + by apply dump_entries_lines in H as (? & ? & ?).
    + by destruct H as (k & [= ->] & Hk).
  - intros H. right. right. right. left. by exists obj.
Qed.

Lemma checkpoint_report_added a r obj refs :
  DumpEntry obj refs ∈ checkpoint_report w a r
  <-> is_Some (a !! obj) /\ obj <> NULL /\ ref_count w obj <> 0%Z
      /\ refs = ref_count w obj.
Proof.
  unfold checkpoint_report.
  rewrite !elem_of_app, !elem_of_cons, list_elem_of_fmap.
  rewrite <- table_keys_elem, <- dump_entries_elem. split.
  - intros H. destruct_or!; try done; try (by apply elem_of_nil in H).
    by destruct H as (k & [=] & Hk).
  - intros H. by right; left.
Qed.

(** The invariant, and the keys an operation adds. *)
Lemma tables_after_added_is_live e s :
  added_is_live (gobject_list_state s) -> added_is_live (tables_after w e s).
Proof.
  intros Hinv. destruct e; cbn [tables_after]; cbn zeta;
    repeat case_match;
    eauto using record_created_added_is_live,
      record_finalized_added_is_live, clear_deltas_added_is_live.
Qed.

Lemma tables_after_new_added e s :
  dom (added (tables_after w e s)) ∖ dom (added_delta s)
  ⊆ dom (objects (tables_after w e s)).
Proof.
  unfold added_delta.
  destruct e; cbn [tables_after]; cbn zeta; repeat case_match;
    try apply record_created_new_added; apply no_new_added; try done.
  unfold record_finalized. cbn [added].
  rewrite dom_delete_L. intros k. rewrite elem_of_difference. tauto.
Qed.

(** Within an interval an added object stays added. *)
Lemma step_keeps_added obj e s :
  within_interval obj e = true ->
  added_delta s !! obj = Some tt ->
  added_delta (step (w, e) s) !! obj = Some tt.
Proof.
  unfold added_delta. rewrite step_tables. intros Hin Hadded.
  destruct e; cbn [tables_after]; cbn zeta; repeat case_match;
    try (by apply record_created_keeps_added); try done.
  cbn [within_interval] in Hin. apply negb_true_iff, Z.eqb_neq in Hin.
  unfold record_finalized. cbn [added]. by rewrite lookup_delete_ne.
Qed.

(** Without creation and finalization empty deltas stay empty. *)
Lemma step_keeps_deltas_empty e s :
  no_create_finalize e = true ->
  added_delta s = ∅ -> removed_delta s = ∅ ->
  added_delta (step (w, e) s) = ∅ /\ removed_delta (step (w, e) s) = ∅.
Proof.
  unfold added_delta, removed_delta. rewrite step_tables.
  by destruct e.
Qed.

End Step.

(** *** Runs *)

Section Runs.

Implicit Types (trace : list (World * event)) (s : State).

Lemma run_added_is_live trace s :
  added_is_live (gobject_list_state s) ->
  added_is_live (gobject_list_state (run trace s)).
Proof.
  revert s. induction trace as [|[w e] trace IH]; intros s Hinv; [done|].
  cbn [run]. apply IH. rewrite step_tables.
  by apply tables_after_added_is_live.
Qed.

Lemma run_keeps_added obj trace s :
  forallb (fun we => within_interval obj we.2) trace = true ->
  added_delta s !! obj = Some tt ->
  added_delta (run trace s) !! obj = Some tt.
Proof.
  revert s. induction trace as [|[w e] trace IH]; intros s Hall Hadded;
    [done|].
  cbn [forallb] in Hall. apply andb_prop in Hall as [He Hall].
  cbn [run]. apply IH; [done|]. by apply step_keeps_added.
Qed.

Lemma run_keeps_deltas_empty trace s :
  forallb (fun we => no_create_finalize we.2) trace = true ->
  added_delta s = ∅ -> removed_delta s = ∅ ->
  added_delta (run trace s) = ∅ /\ removed_delta (run trace s) = ∅.
Proof.
  revert s. induction trace as [|[w e] trace IH]; intros s Hall Ha Hr;
    [done|].
  cbn [forallb] in Hall. apply andb_prop in Hall as [He Hall].
  destruct (step_keeps_deltas_empty w e s He Ha Hr) as [Ha' Hr'].
  cbn [run]. by apply IH.
Qed.

End Runs.

(** ** The finalization callback *)

(** C2. The finalization hook is to record a finalized object that is not
    in the Added-Delta into the Removed-Delta whatever the display
    categories. With [GOBJECT_LIST_DISPLAY] set to refs, object 5, live
    since before the last check point, is finalized: it leaves [objects],
    nothing enters [removed], and the next check point reports no removed
    object. *)
Theorem finalized_without_create_not_recorded :
  let s := survivor_state refs_world in
  let s' := exec (_object_finalized refs_world 5%Z) s in
  (live_set s !! 5%Z = Some tt /\ added_delta s !! 5%Z = None)
  /\ live_set s' !! 5%Z = None
  /\ removed_delta s' = ∅
  /\ output (exec (_sig_usr2_handler refs_world) s')
     = (output s' ++ [Print "Added Objects:"; PrintObjects 0;
                      Print "Removed Objects:"; PrintObjects 0;
                      Print "Saved new check point"])%list.
Proof. by vm_compute. Qed.

(** With the creation category enabled the same finalization is
    recorded. *)
Lemma finalized_with_create_recorded :
  removed_delta
    (exec (_object_finalized default_world 5%Z) (survivor_state default_world))
  = {[ 5%Z := "GstBuffer" ]}.
Proof. by vm_compute. Qed.

(** C3, as stated. Object 5 is created when its type is named GstBuffer
    and survives a check point; when the hook runs, the name read from the
    object is GstQuery: the entry of [removed] carries GstQuery, not the
    name of the creation time. *)
Lemma removed_entry_not_creation_name :
  let s := survivor_state default_world in
  let s' := exec (_object_finalized later_world 5%Z) s in
  GST_MINI_OBJECT_TYPE_NAME default_world 5%Z = "GstBuffer"
  /\ G_OBJECT_TYPE_NAME default_world 5%Z = "GstBuffer"
  /\ removed_delta s' !! 5%Z = Some "GstQuery"
  /\ removed_delta s' !! 5%Z
     <> Some (GST_MINI_OBJECT_TYPE_NAME default_world 5%Z).
Proof. by vm_compute. Qed.

(** C3, amended. Whatever the state, the finalization hook either leaves
    [removed] as it is or inserts, under the finalized object, the type name
    that [G_OBJECT_TYPE_NAME] yields in the world the hook runs in; it does
    insert it when the creation category is displayed and the object is not
    in [added]. The tables [objects] and [added] hold a marker and no type
    name. *)
Theorem removed_entry_is_name_at_finalization (w : World) (obj : Z)
    (s : State) :
  let s' := exec (_object_finalized w obj) s in
  (removed_delta s' = removed_delta s
   \/ removed_delta s'
      = <[obj := G_OBJECT_TYPE_NAME w obj]> (removed_delta s))
  /\ (enabled (resolved_flags w s) DISPLAY_FLAG_CREATE = true ->
      added_delta s !! obj = None ->
      removed_delta s' !! obj = Some (G_OBJECT_TYPE_NAME w obj)).
Proof.
  unfold removed_delta, added_delta. cbn zeta. rewrite object_finalized_tables.
  unfold record_finalized. cbn [removed]. split.
  - destruct (_ && _); [by right | by left].
  - intros -> ->. rewrite bool_decide_eq_true_2 by done.
    apply lookup_insert_eq.
Qed.

Lemma removed_entry_is_name_at_finalization_witness :
  removed_delta
    (exec (_object_finalized later_world 5%Z) (survivor_state default_world))
  !! 5%Z
  = Some (G_OBJECT_TYPE_NAME later_world 5%Z).
Proof.
  exact (proj2 (removed_entry_is_name_at_finalization later_world 5%Z
                  (survivor_state default_world)) eq_refl eq_refl).
Defined.

(** The hook on an object that is in the Added-Delta. Let an operation
    [creation] have recorded object [obj] in the Added-Delta, as
    [new_mini_object] does from every state, and let any operations follow
    that neither take a check point nor run the hook on [obj]. Then the hook
    on [obj] leaves the Removed-Delta as it is and takes [obj] out of the
    Added-Delta, and the next check point prints the removed objects it
    would have printed before. This is the first callback of an object; it
    says nothing of a second one. *)
Theorem transient_object_not_removed (creation : World * event)
    (between : list (World * event)) (w : World) (obj : Z) (s : State) :
  added_delta (step creation s) !! obj = Some tt ->
  forallb (fun we => within_interval obj we.2) between = true ->
  let s1 := run (creation :: between) s in
  let s2 := exec (_object_finalized w obj) s1 in
  removed_delta s2 = removed_delta s1
  /\ added_delta s2 !! obj = None
  /\ (RemovedEntry <$> table_keys (removed_delta s2))
     = (RemovedEntry <$> table_keys (removed_delta s1)).
Proof.
  intros Hadded Hbetween s1 s2.
  assert (Hs1 : added_delta s1 !! obj = Some tt)
    by (unfold s1; cbn [run]; by apply run_keeps_added).
  assert (Hremoved : removed_delta s2 = removed_delta s1).
  { unfold s2, removed_delta. rewrite object_finalized_tables.
    unfold record_finalized. cbn [removed].
    unfold added_delta in Hs1. rewrite Hs1.
    rewrite bool_decide_eq_false_2 by done. by rewrite andb_false_r. }
  split; [done|]. split.
  - unfold s2, added_delta. rewrite object_finalized_tables.
    apply lookup_delete_eq.
  - by rewrite Hremoved.
Qed.

Lemma transient_object_not_removed_witness :
  let trace := [(default_world, E_new_mini_object 5%Z);
                (default_world, E_new_mini_object 6%Z);
                (default_world, E_object_finalized 6%Z);
                (default_world, E_sig_usr1)] in
  removed_delta
    (exec (_object_finalized default_world 5%Z) (run trace init_state))
  = removed_delta (run trace init_state)
  /\ added_delta
       (exec (_object_finalized default_world 5%Z) (run trace init_state))
     !! 5%Z = None.
Proof.
  pose proof (transient_object_not_removed
                (default_world, E_new_mini_object 5%Z)
                [(default_world, E_new_mini_object 6%Z);
                 (default_world, E_object_finalized 6%Z);
                 (default_world, E_sig_usr1)]
                default_world 5%Z init_state eq_refl eq_refl) as H.
  exact (conj (proj1 H) (proj1 (proj2 H))).
Defined.

(** C4. An object created and finalized within one check-point interval is
    to contribute no entry to the report of the removed objects. Buffer 5 is
    recorded twice by [new_mini_object] before any check point, which
    registers [_object_finalized] twice on it; when the buffer is freed both
    callbacks run. The first takes it out of the Added-Delta and inserts
    nothing; the second no longer finds it there and inserts it into the
    Removed-Delta, and the check point that closes the interval lists it
    among the removed objects. Recorded once, the same buffer is reported by
    no check point. *)
Theorem transient_object_reported_removed :
  let w := default_world in
  let created :=
    run [(w, E_new_mini_object 5%Z); (w, E_new_mini_object 5%Z)] init_state in
  let first := exec (_object_finalized w 5%Z) created in
  let second := exec (_object_finalized w 5%Z) first in
  (weak_refs created = [5%Z; 5%Z]
   /\ added_delta created !! 5%Z = Some tt
   /\ removed_delta created = ∅)
  /\ (added_delta first !! 5%Z = None /\ removed_delta first = ∅)
  /\ removed_delta second = {[ 5%Z := "GstBuffer" ]}
  /\ output (exec (_sig_usr2_handler w) second)
     = (output second ++ [Print "Added Objects:"; PrintObjects 0;
                          Print "Removed Objects:"; RemovedEntry 5;
                          PrintObjects 1; Print "Saved new check point"])%list
  /\ output
       (run [(w, E_new_mini_object 5%Z); (w, E_object_finalized 5%Z);
             (w, E_sig_usr2)] init_state)
     = [Finalized 5; Print "Added Objects:"; PrintObjects 0;
        Print "Removed Objects:"; PrintObjects 0;
        Print "Saved new check point"].
Proof. by vm_compute. Qed.

(** ** The invariant of the deltas *)

(** C5. In every state a run of operations reaches from the initial state,
    the keys of the Added-Delta are keys of the Live Set; a key that an
    operation brings into the Added-Delta is in the Live Set afterwards; and
    the finalization of an object leaves it in neither table. *)
Theorem added_subset_of_live (trace : list (World * event))
    (we : World * event) (w : World) (obj : Z) (s : State) :
  dom (added_delta (run trace init_state))
    ⊆ dom (live_set (run trace init_state))
  /\ dom (added_delta (step we s)) ∖ dom (added_delta s)
       ⊆ dom (live_set (step we s))
  /\ live_set (exec (_object_finalized w obj) s) !! obj = None
  /\ added_delta (exec (_object_finalized w obj) s) !! obj = None.
Proof.
  split; [|split; [|split]].
  - apply (run_added_is_live trace init_state).
    unfold added_is_live, init_state. cbn [gobject_list_state added objects].
    by rewrite dom_empty_L.
  - destruct we as [w' e]. unfold live_set. unfold added_delta at 1.
    rewrite step_tables. apply tables_after_new_added.
  - unfold live_set. rewrite object_finalized_tables. apply lookup_delete_eq.
  - unfold added_delta. rewrite object_finalized_tables.
    apply lookup_delete_eq.
Qed.

(** ** Check points and dumps *)

(** C6. A check point prints the report of the two deltas as they are (a
    line per removed object, a line per added object that the dump does not
    skip, and the size of each table) and leaves both tables empty. After
    any operations that are neither creations nor finalizations, the next
    check point prints no object and the size 0 for both tables: what one
    check point has reported, the next does not report again. *)
Theorem checkpoint_reports_and_clears (w : World) (s : State) :
  let s1 := exec (_sig_usr2_handler w) s in
  let report := checkpoint_report w (added_delta s) (removed_delta s) in
  output s1 = (output s ++ report)%list
  /\ In (PrintObjects (size (added_delta s))) report
  /\ In (PrintObjects (size (removed_delta s))) report
  /\ (forall obj, RemovedEntry obj ∈ report <-> is_Some (removed_delta s !! obj))
  /\ (forall obj refs,
        DumpEntry obj refs ∈ report
        <-> is_Some (added_delta s !! obj) /\ obj <> NULL
            /\ ref_count w obj <> 0%Z /\ refs = ref_count w obj)
  /\ added_delta s1 = ∅
  /\ removed_delta s1 = ∅
  /\ forall between w2,
       forallb (fun we => no_create_finalize we.2) between = true ->
       let s2 := run between s1 in
       output (exec (_sig_usr2_handler w2) s2)
       = (output s2 ++ [Print "Added Objects:"; PrintObjects 0;
                        Print "Removed Objects:"; PrintObjects 0;
                        Print "Saved new check point"])%list.
Proof.
  intros s1 report.
  assert (Ha : added_delta s1 = ∅)
    by (unfold s1, added_delta; by rewrite sig_usr2_tables).
  assert (Hr : removed_delta s1 = ∅)
    by (unfold s1, removed_delta; by rewrite sig_usr2_tables).
  split; [apply sig_usr2_output|].
  split; [unfold report, checkpoint_report; rewrite !in_app_iff; simpl; tauto|].
  split; [unfold report, checkpoint_report; rewrite !in_app_iff; simpl; tauto|].
  split; [intros obj; apply checkpoint_report_removed|].
  split; [intros obj refs; apply checkpoint_report_added|].
  split; [done|]. split; [done|].
  intros between w2 Hquiet s2.
  destruct (run_keeps_deltas_empty between s1 Hquiet Ha Hr) as [Ha2 Hr2].
  rewrite sig_usr2_output. unfold s2. by rewrite Ha2, Hr2.
Qed.

Lemma checkpoint_reports_and_clears_witness :
  let s := run [(default_world, E_new_mini_object 5%Z)] init_state in
  let s1 := exec (_sig_usr2_handler default_world) s in
  let s2 := run [(default_world, E_sig_usr1); (refs_world, E_g_object_ref 5%Z)]
              s1 in
  output (exec (_sig_usr2_handler later_world) s2)
  = (output s2 ++ [Print "Added Objects:"; PrintObjects 0;
                   Print "Removed Objects:"; PrintObjects 0;
                   Print "Saved new check point"])%list.
Proof.
  exact (proj2 (proj2 (proj2 (proj2 (proj2 (proj2 (proj2
    (checkpoint_reports_and_clears default_world
       (run [(default_world, E_new_mini_object 5%Z)] init_state))))))))
    [(default_world, E_sig_usr1); (refs_world, E_g_object_ref 5%Z)]
    later_world eq_refl).
Defined.

(** C10. A check point leaves the table of live objects as it is, and with
    it the registered callbacks; it empties the two deltas. *)
Theorem checkpoint_keeps_live_set (w : World) (s : State) :
  let s1 := exec (_sig_usr2_handler w) s in
  live_set s1 = live_set s
  /\ weak_refs s1 = weak_refs s
  /\ added_delta s1 = ∅
  /\ removed_delta s1 = ∅.
Proof.
  unfold live_set, added_delta, removed_delta. cbn zeta.
  rewrite sig_usr2_tables. split; [done|]. split; [|done].
  destruct s as [f p [o a r] refs out]. by open_ops.
Qed.

(** C8. Both dumps of the live objects, the one of [SIGUSR1] and the one
    at the end of the process, print their heading, one line for each object
    of the table that is not [NULL] and whose reference count is not 0, and
    the size of the table; they change no table. An entry that is [NULL] or
    has a reference count of 0 adds nothing to the lines, and the entries
    before and after it are printed as without it. *)
Theorem dump_skips_unreferenced (w : World) (s : State) :
  let lines := dump_entries w (table_keys (live_set s)) in
  output (exec (_sig_usr1_handler w) s)
  = (output s ++ [Print "Living Objects:"] ++ lines
     ++ [PrintObjects (size (live_set s))])%list
  /\ output (exec (print_still_alive w) s)
     = (output s ++ [StillAlive (g_get_prgname w)] ++ lines
        ++ [PrintObjects (size (live_set s))])%list
  /\ gobject_list_state (exec (_sig_usr1_handler w) s) = gobject_list_state s
  /\ gobject_list_state (exec (print_still_alive w) s) = gobject_list_state s
  /\ (forall obj refs,
        DumpEntry obj refs ∈ lines
        <-> is_Some (live_set s !! obj) /\ obj <> NULL
            /\ ref_count w obj <> 0%Z /\ refs = ref_count w obj)
  /\ (forall before obj after,
        obj = NULL \/ ref_count w obj = 0%Z ->
        dump_entries w (before ++ obj :: after)%list
        = (dump_entries w before ++ dump_entries w after)%list).
Proof.
  cbn zeta. split; [apply sig_usr1_output|].
  split; [apply print_still_alive_output|].
  split; [done|]. split; [done|]. split.
  - intros obj refs. by rewrite dump_entries_elem, table_keys_elem.
  - intros before obj after Hskip. rewrite dump_entries_app. f_equal.
    cbn [dump_entries]. destruct Hskip as [Hnull | Hzero].
    + by rewrite Hnull.
    + by rewrite Hzero, orb_true_r.
Qed.

Lemma dump_skips_unreferenced_witness :
  ref_count default_world 7%Z = 0%Z
  /\ dump_entries default_world ([5%Z] ++ 7%Z :: [9%Z])%list
     = [DumpEntry 5 1; DumpEntry 9 1].
Proof.
  split; [reflexivity|].
  exact (proj2 (proj2 (proj2 (proj2 (proj2
    (dump_skips_unreferenced default_world init_state)))))
    [5%Z] 7%Z [9%Z] (or_intror eq_refl)).
Defined.

(** ** Creation entry points *)

(** C7. Recording a creation for an object that is already live is to
    change nothing. Object 5 is live and has one callback registered;
    [new_mini_object] on it registers [_object_finalized] a second time and
    puts the object into the Added-Delta again, where [g_object_new] leaves
    the state as it is. When both callbacks of an object created twice in
    one interval run, the second one records it as removed. *)
Theorem new_mini_object_twice_registers_twice :
  let w := default_world in
  let s := survivor_state w in
  let s' := exec (new_mini_object w 5%Z) s in
  (live_set s !! 5%Z = Some tt /\ added_delta s !! 5%Z = None
   /\ weak_refs s = [5%Z])
  /\ weak_refs s' = [5%Z; 5%Z]
  /\ added_delta s' !! 5%Z = Some tt
  /\ g_object_new w 5%Z s = (5%Z, s)
  /\ removed_delta
       (run [(w, E_new_mini_object 5%Z); (w, E_new_mini_object 5%Z);
             (w, E_object_finalized 5%Z); (w, E_object_finalized 5%Z)]
          init_state)
     = {[ 5%Z := "GstBuffer" ]}.
Proof. by vm_compute. Qed.

(** * Further properties *)

(** ** The display filter: how tokens combine *)

Section TokenFlags.

Lemma scan_flags_map_lor token map f :
  scan_flags_map token map f = Z.lor f (scan_flags_map token map 0%Z).
Proof.
  induction map as [|item map IH]; cbn [scan_flags_map].
  - by rewrite Z.lor_0_r.
  - destruct (_ =? _)%Z; [by rewrite Z.lor_0_l | done].
Qed.

(** The two loops join the flags of the tokens to the flags they start
    from. *)
Lemma scan_tokens_union tokens f :
  scan_tokens tokens f = Z.lor f (union_flags tokens).
Proof.
  revert f. induction tokens as [|t tokens IH]; intros f;
    cbn [scan_tokens union_flags foldr].
  - by rewrite Z.lor_0_r.
  - rewrite IH, scan_flags_map_lor. fold (token_flag t).
    fold (union_flags tokens). by rewrite Z.lor_assoc.
Qed.

Lemma union_flags_app tokens1 tokens2 :
  union_flags (tokens1 ++ tokens2)%list
  = Z.lor (union_flags tokens1) (union_flags tokens2).
Proof.
  unfold union_flags. induction tokens1 as [|t tokens1 IH]; cbn [app foldr].
  - by rewrite Z.lor_0_l.
  - by rewrite IH, Z.lor_assoc.
Qed.

Lemma union_flags_permutation tokens1 tokens2 :
  tokens1 ≡ₚ tokens2 -> union_flags tokens1 = union_flags tokens2.
Proof.
  unfold union_flags.
  induction 1 as [|t l1 l2 _ IH|t1 t2 l|l1 l2 l3 _ IH1 _ IH2];
    cbn [foldr]; [done | by rewrite IH | | congruence].
  rewrite !Z.lor_assoc. f_equal. apply Z.lor_comm.
Qed.

Lemma token_flag_unrecognized token :
  recognized token = false -> token_flag token = 0%Z.
Proof. apply scan_flags_map_no_match. Qed.

Lemma token_flag_none token :
  g_ascii_strcasecmp token "none" = 0%Z -> token_flag token = 0%Z.
Proof.
  intros H. unfold token_flag, display_flags_map. cbn [scan_flags_map name].
  by rewrite H.
Qed.

(** A non-empty string splits into a non-empty vector. *)
Lemma g_strsplit_nonempty display :
  display <> "" -> (0 <? g_strv_length (g_strsplit display ","))%nat = true.
Proof.
  destruct display as [|c r]; [done|]. intros _.
  unfold g_strsplit. destruct (split_pieces "," (String c r)). done.
Qed.

(** Joining flags keeps what was enabled. *)
Lemma enabled_lor_l f g flags :
  enabled f flags = true -> enabled (Z.lor f g) flags = true.
Proof.
  unfold enabled. rewrite !negb_true_iff, !Z.eqb_neq.
  rewrite Z.land_lor_distr_l. intros Hf Hfg.
  apply Z.lor_eq_0_iff in Hfg as [Hz _]. by apply Hf.
Qed.

(** The flags of a first call that finds [display] in the environment. *)
Lemma resolved_flags_tokens w s display :
  parsed s = false ->
  g_getenv w "GOBJECT_LIST_DISPLAY" = Some display ->
  display <> "" ->
  resolved_flags w s = union_flags (g_strsplit display ",").
Proof.
  intros Hparsed Henv Hne. unfold resolved_flags, resolve_flags.
  rewrite Hparsed, Henv, (g_strsplit_nonempty _ Hne).
  by rewrite scan_tokens_union, Z.lor_0_l.
Qed.

End TokenFlags.

(** X1. The order of the tokens of [GOBJECT_LIST_DISPLAY] does not matter:
    two first calls of [display_filter] whose configurations split into
    the same tokens in another order give the same answer and leave the same
    state. *)
Theorem display_filter_token_order (w1 w2 : World) (display1 display2 : string)
    (flags : Z) (s : State) :
  parsed s = false ->
  g_getenv w1 "GOBJECT_LIST_DISPLAY" = Some display1 ->
  g_getenv w2 "GOBJECT_LIST_DISPLAY" = Some display2 ->
  g_strsplit display1 "," ≡ₚ g_strsplit display2 "," ->
  display_filter w1 flags s = display_filter w2 flags s.
Proof.
  intros Hparsed Henv1 Henv2 Hperm. rewrite !display_filter_run.
  assert (resolved_flags w1 s = resolved_flags w2 s) as ->; [|done].
  unfold resolved_flags, resolve_flags. rewrite Hparsed, Henv1, Henv2.
  cbn zeta. unfold g_strv_length. rewrite (Permutation_length Hperm).
  rewrite !scan_tokens_union. f_equal. by apply union_flags_permutation.
Qed.

Lemma display_filter_token_order_witness :
  display_filter (example_world (Some "refs,create") None "GstBuffer")
    DISPLAY_FLAG_CREATE init_state
  = display_filter (example_world (Some "create,refs") None "GstBuffer")
      DISPLAY_FLAG_CREATE init_state.
Proof.
  refine (display_filter_token_order
            (example_world (Some "refs,create") None "GstBuffer")
            (example_world (Some "create,refs") None "GstBuffer")
            "refs,create" "create,refs" DISPLAY_FLAG_CREATE init_state
            eq_refl eq_refl eq_refl _).
  assert (g_strsplit "refs,create" "," = ["refs"; "create"]) as ->
    by (vm_compute; reflexivity).
  assert (g_strsplit "create,refs" "," = ["create"; "refs"]) as ->
    by (vm_compute; reflexivity).
  apply perm_swap.
Defined.

(** X2. Tokens only add categories: when the tokens of one non-empty
    configuration are among those of another, with multiplicity and in any
    order, every query that the first configuration answers with true the
    second answers with true. *)
Theorem display_filter_more_tokens (w1 w2 : World) (display1 display2 : string)
    (flags : Z) (s : State) :
  parsed s = false ->
  g_getenv w1 "GOBJECT_LIST_DISPLAY" = Some display1 ->
  g_getenv w2 "GOBJECT_LIST_DISPLAY" = Some display2 ->
  display1 <> "" ->
  g_strsplit display1 "," ⊆+ g_strsplit display2 "," ->
  eval (display_filter w1 flags) s = true ->
  eval (display_filter w2 flags) s = true.
Proof.
  intros Hparsed Henv1 Henv2 Hne1 Hsub. unfold eval.
  rewrite !display_filter_run. cbn [fst].
  assert (Hne2 : display2 <> "").
  { intros ->. apply submseteq_nil_r in Hsub.
    pose proof (g_strsplit_nonempty _ Hne1) as Hlen.
    by rewrite Hsub in Hlen. }
  rewrite (resolved_flags_tokens _ _ _ Hparsed Henv1 Hne1).
  rewrite (resolved_flags_tokens _ _ _ Hparsed Henv2 Hne2).
  apply submseteq_Permutation in Hsub as [more Hperm].
  rewrite (union_flags_permutation _ _ Hperm), union_flags_app.
  apply enabled_lor_l.
Qed.

Lemma display_filter_more_tokens_witness :
  eval (display_filter (example_world (Some "bogus,backtrace,refs") None
                          "GstBuffer") DISPLAY_FLAG_REFS) init_state
  = true.
Proof.
  refine (display_filter_more_tokens
            (example_world (Some "refs") None "GstBuffer")
            (example_world (Some "bogus,backtrace,refs") None "GstBuffer")
            "refs" "bogus,backtrace,refs" DISPLAY_FLAG_REFS init_state
            eq_refl eq_refl eq_refl _ _ eq_refl).
  - discriminate.
  - assert (g_strsplit "refs" "," = ["refs"]) as ->
      by (vm_compute; reflexivity).
    assert (g_strsplit "bogus,backtrace,refs" ","
            = ["bogus"; "backtrace"; "refs"]) as ->
      by (vm_compute; reflexivity).
    apply submseteq_cons, submseteq_cons. reflexivity.
Defined.

(** X3. The empty configuration is the default, a configuration that names
    no category is not: with [GOBJECT_LIST_DISPLAY] set to the empty string
    the first call leaves the flags it finds, as when the variable is unset;
    with a non-empty string each token of which is none or matches no name,
    it clears them, and every query is answered with false, the creation
    category included. *)
Theorem display_filter_names_nothing (w : World) (display : string)
    (flags : Z) (s : State) :
  parsed s = false ->
  g_getenv w "GOBJECT_LIST_DISPLAY" = Some display ->
  (display = "" ->
   display_flags (exec (display_filter w flags) s) = display_flags s)
  /\ (display <> "" ->
      Forall (fun token => recognized token = false
                           \/ g_ascii_strcasecmp token "none" = 0%Z)
        (g_strsplit display ",") ->
      display_flags (exec (display_filter w flags) s) = 0%Z
      /\ eval (display_filter w flags) s = false).
Proof.
  intros Hparsed Henv. unfold exec, eval. rewrite display_filter_run.
  cbn [fst snd with_flags display_flags]. split.
  - intros ->. unfold resolved_flags, resolve_flags.
    by rewrite Hparsed, Henv.
  - intros Hne Hall. rewrite (resolved_flags_tokens _ _ _ Hparsed Henv Hne).
    assert (union_flags (g_strsplit display ",") = 0%Z) as ->; [|done].
    induction Hall as [|t ts Ht _ IH]; [done|].
    unfold union_flags. cbn [foldr]. fold (union_flags ts). rewrite IH.
    destruct Ht as [Ht|Ht];
      [by rewrite token_flag_unrecognized | by rewrite token_flag_none].
Qed.

Lemma display_filter_names_nothing_witness :
  display_flags
    (exec (display_filter (example_world (Some "") None "GstBuffer")
             DISPLAY_FLAG_CREATE) init_state)
  = DISPLAY_FLAG_CREATE
  /\ eval (display_filter (example_world (Some "None,creat,") None "GstBuffer")
             DISPLAY_FLAG_CREATE) init_state
     = false.
Proof.
  split.
  - exact (proj1 (display_filter_names_nothing
                    (example_world (Some "") None "GstBuffer") ""
                    DISPLAY_FLAG_CREATE init_state eq_refl eq_refl) eq_refl).
  - refine (proj2 (proj2 (display_filter_names_nothing
                    (example_world (Some "None,creat,") None "GstBuffer")
                    "None,creat," DISPLAY_FLAG_CREATE init_state
                    eq_refl eq_refl) _ _)).
    + discriminate.
    + assert (g_strsplit "None,creat," "," = ["None"; "creat"; ""]) as ->
        by (vm_compute; reflexivity).
      repeat constructor; first [by left; vm_compute | by right; vm_compute].
Defined.

(** ** What the operations leave alone *)

Section StepFrames.

Context (w : World).

Implicit Types (s : State) (e : event) (obj : Z).

(** The statics of [display_filter] after one operation: left as they were,
    or parsed. *)
Lemma step_display e s :
  (display_flags (step (w, e) s) = display_flags s
   /\ parsed (step (w, e) s) = parsed s)
  \/ (display_flags (step (w, e) s) = resolved_flags w s
      /\ parsed (step (w, e) s) = true).
Proof.
  destruct s as [f p [o a r] refs out].
  destruct e; run_ops; first [by left | by right].
Qed.

(** The lines one operation prints. *)
Lemma step_output e s :
  exists lines,
    output (step (w, e) s) = (output s ++ lines)%list
    /\ Forall (fun l => creation_or_ref_line l = false) lines.
Proof.
  destruct s as [f p [o a r] refs out].
  destruct e; open_ops; rewrite ?object_filter_always_false, ?andb_false_r;
    run_ops; rewrite <- ?app_assoc;
    (eexists; split; [reflexivity || (symmetry; apply app_nil_r)|]);
    rewrite ?Forall_app, ?Forall_cons, ?Forall_fmap;
    repeat split; try done;
    try (apply Forall_forall; intros l Hl;
         apply dump_entries_lines in Hl as (? & ? & ->); done);
    try (by apply Forall_true).
  all: by rewrite andb_false_r in *.
Qed.

(** The callbacks registered after one operation. *)
Lemma step_weak_refs e s :
  weak_refs (step (w, e) s)
  = match e with
    | E_new_mini_object m => m :: weak_refs s
    | _ => weak_refs s
    end.
Proof.
  destruct s as [f p [o a r] refs out].
  destruct e; open_ops; rewrite ?object_filter_always_false, ?andb_false_r;
    run_ops; first [done | by rewrite andb_false_r in *].
Qed.

(** The tables after one operation, the name filter being what it is. *)
Lemma step_tables_actual e s :
  gobject_list_state (step (w, e) s)
  = match e with
    | E_new_mini_object m => record_created m (gobject_list_state s)
    | E_object_finalized obj =>
        record_finalized (enabled (resolved_flags w s) DISPLAY_FLAG_CREATE)
          obj (G_OBJECT_TYPE_NAME w obj) (gobject_list_state s)
    | E_sig_usr2 => clear_deltas (gobject_list_state s)
    | _ => gobject_list_state s
    end.
Proof.
  rewrite step_tables. destruct e; cbn [tables_after]; cbn zeta; try done;
    by rewrite object_filter_always_false, andb_false_r.
Qed.

End StepFrames.

Section RunFrames.

Implicit Types (trace : list (World * event)) (s : State).

Lemma resolve_flags_within w f p :
  within_all f -> within_all (resolve_flags w f p).
Proof.
  unfold within_all, resolve_flags. intros Hf.
  destruct p; [done|]. destruct (g_getenv w _) as [display|]; [|done].
  cbn zeta. apply scan_tokens_within. by destruct (_ <? _)%nat.
Qed.

Lemma enabled_outside_all f flags :
  within_all f -> Z.land flags DISPLAY_FLAG_ALL = 0%Z ->
  enabled f flags = false.
Proof.
  unfold within_all, enabled. intros Hf Hflags.
  apply negb_false_iff, Z.eqb_eq, Z.bits_inj'. intros n Hn.
  rewrite Z.land_spec, Z.bits_0.
  destruct (Z.testbit f n) eqn:Hbit; [|done]. cbn [andb].
  assert (Hall : Z.testbit DISPLAY_FLAG_ALL n = true).
  { rewrite <- Hf, Z.lor_spec, Hbit. done. }
  assert (Hzero : Z.testbit (Z.land flags DISPLAY_FLAG_ALL) n = false)
    by (rewrite Hflags; apply Z.bits_0).
  rewrite Z.land_spec, Hall, andb_true_r in Hzero. done.
Qed.

Lemma run_parsed trace s :
  parsed s = true ->
  display_flags (run trace s) = display_flags s /\ parsed (run trace s) = true.
Proof.
  revert s. induction trace as [|[w e] trace IH]; intros s Hparsed; [done|].
  cbn [run].
  assert (display_flags (step (w, e) s) = display_flags s
          /\ parsed (step (w, e) s) = true) as [Hf Hp].
  { destruct (step_display w e s) as [[Hf Hp]|[Hf Hp]].
    - by rewrite Hp.
    - split; [|done]. rewrite Hf. unfold resolved_flags.
      by rewrite Hparsed. }
  destruct (IH _ Hp) as [Hf' Hp']. by rewrite Hf', Hf.
Qed.

Lemma run_within_all trace s :
  within_all (display_flags s) -> within_all (display_flags (run trace s)).
Proof.
  revert s. induction trace as [|[w e] trace IH]; intros s Hwithin; [done|].
  cbn [run]. apply IH.
  destruct (step_display w e s) as [[-> _]|[-> _]]; [done|].
  by apply resolve_flags_within.
Qed.

Lemma run_output trace s :
  exists lines,
    output (run trace s) = (output s ++ lines)%list
    /\ Forall (fun l => creation_or_ref_line l = false) lines.
Proof.
  revert s. induction trace as [|[w e] trace IH]; intros s.
  - exists []. by rewrite app_nil_r.
  - cbn [run]. destruct (step_output w e s) as (lines1 & Hout1 & Hq1).
    destruct (IH (step (w, e) s)) as (lines2 & Hout2 & Hq2).
    exists (lines1 ++ lines2)%list. split.
    + by rewrite Hout2, Hout1, app_assoc.
    + by apply Forall_app.
Qed.

End RunFrames.

(** X4. The display configuration is read once in the life of the
    process: from a state in which it was parsed, no run of operations
    changes the flags, whatever the environment becomes. In every state
    reached from the initial one the flags have no bit outside
    [DISPLAY_FLAG_ALL], so a query for flags outside it is answered with
    false. *)
Theorem display_flags_across_runs (trace : list (World * event))
    (s : State) (w : World) (flags : Z) :
  (parsed s = true ->
   display_flags (run trace s) = display_flags s
   /\ parsed (run trace s) = true)
  /\ within_all (display_flags (run trace init_state))
  /\ (Z.land flags DISPLAY_FLAG_ALL = 0%Z ->
      eval (display_filter w flags) (run trace init_state) = false).
Proof.
  assert (Hwithin : within_all (display_flags (run trace init_state)))
    by by apply run_within_all.
  split; [apply run_parsed|]. split; [done|].
  intros Hflags. unfold eval. rewrite display_filter_run. cbn [fst].
  apply enabled_outside_all; [|done].
  by apply resolve_flags_within.
Qed.

Lemma display_flags_across_runs_witness :
  let s := exec (display_filter default_world DISPLAY_FLAG_CREATE) init_state in
  let trace := [(refs_world, E_new_mini_object 5%Z);
                (refs_world, E_object_finalized 5%Z)] in
  display_flags (run trace s) = DISPLAY_FLAG_CREATE
  /\ eval (display_filter refs_world 2%Z) (run trace init_state) = false.
Proof.
  pose proof (display_flags_across_runs
                [(refs_world, E_new_mini_object 5%Z);
                 (refs_world, E_object_finalized 5%Z)]
                (exec (display_filter default_world DISPLAY_FLAG_CREATE)
                   init_state)
                refs_world 2%Z) as (Hparsed & _ & Houtside).
  exact (conj (proj1 (Hparsed eq_refl)) (Houtside eq_refl)).
Defined.

(** X6. The output only grows, and no run of operations prints a line
    that reports a creation or a change of a reference count, whatever the
    display configuration: the lines a run adds are dumps, check points,
    finalizations, backtraces and the banner of [gst_mini_object_init]. *)
Theorem no_creation_or_ref_line (trace : list (World * event)) (s : State) :
  exists lines,
    output (run trace s) = (output s ++ lines)%list
    /\ Forall (fun l => creation_or_ref_line l = false) lines.
Proof. apply run_output. Qed.

(** X7. [gst_mini_object_init] prints its banner and nothing else, and
    records nothing: the three tables and the registered callbacks are as
    before, so the finalization callback is not registered on an object
    that only passes through this entry point. *)
Theorem gst_mini_object_init_records_nothing (w : World) (mini_object : Z)
    (s : State) :
  let s' := exec (gst_mini_object_init w mini_object) s in
  output s' = (output s ++ [Banner])%list
  /\ gobject_list_state s' = gobject_list_state s
  /\ weak_refs s' = weak_refs s
  /\ parsed s' = true.
Proof.
  cbn zeta. split; [|split; [|split]].
  - destruct s as [f p [o a r] refs out]. open_ops.
    rewrite object_filter_always_false. run_ops; try done.
    all: by rewrite andb_false_r in *.
  - exact (step_tables_actual w (E_gst_mini_object_init mini_object) s).
  - exact (step_weak_refs w (E_gst_mini_object_init mini_object) s).
  - destruct s as [f p [o a r] refs out]. open_ops.
    rewrite object_filter_always_false. run_ops; try done.
Qed.

(** ** The dump: lines and count *)

Section DumpCount.

Context (w : World).

Lemma dump_entries_length keys :
  length (dump_entries w keys) <= length keys
  /\ (length (dump_entries w keys) = length keys <-> Forall (printed w) keys).
Proof.
  unfold printed. induction keys as [|k keys [IHle IHeq]]; cbn [dump_entries length].
  - split; [lia|]. split; [constructor | done].
  - destruct (Z.eqb_spec k NULL) as [Hk|Hk]; cbn [orb];
      [|destruct (Z.eqb_spec (ref_count w k) 0) as [Hr|Hr]]; cbn [length].
    + split; [lia|]. split; [lia|]. intros H. apply Forall_cons in H. tauto.
    + split; [lia|]. split; [lia|]. intros H. apply Forall_cons in H. tauto.
    + split; [lia|]. rewrite Forall_cons. split.
      * intros H. split; [done|]. apply IHeq. lia.
      * intros [_ H]. apply IHeq in H. lia.
Qed.

Lemma dump_entries_NoDup keys : NoDup keys -> NoDup (dump_entries w keys).
Proof.
  induction 1 as [|k keys Hk _ IH]; cbn [dump_entries]; [constructor|].
  destruct (_ || _); [done|]. constructor; [|done].
  rewrite dump_entries_elem. tauto.
Qed.

End DumpCount.

(** X8. The count that ends a dump is the size of the table, not the
    number of lines: [_dump_object_list] prints each entry that is not
    skipped once, never more lines than the count it reports, and as many
    exactly when no entry of the table is [NULL] or without reference. *)
Theorem dump_count_and_lines (w : World) (hash : gmap Z unit) (s : State) :
  let lines := dump_entries w (table_keys hash) in
  output (exec (_dump_object_list w hash) s)
  = (output s ++ lines ++ [PrintObjects (size hash)])%list
  /\ NoDup lines
  /\ length lines <= size hash
  /\ (length lines = size hash
      <-> forall obj, is_Some (hash !! obj) -> printed w obj).
Proof.
  cbn zeta.
  assert (Hsize : length (table_keys hash) = size hash)
    by (unfold table_keys; by rewrite length_fmap, length_map_to_list).
  destruct (dump_entries_length w (table_keys hash)) as [Hle Heq].
  split; [apply dump_object_list_output|].
  split; [apply dump_entries_NoDup, NoDup_fst_map_to_list|].
  split; [lia|]. rewrite <- Hsize, Heq, Forall_forall.
  split; intros H obj Hobj; apply H; by apply table_keys_elem.
Qed.

Lemma dump_count_and_lines_witness :
  let hash : gmap Z unit := {[ 5%Z := tt; 7%Z := tt ]} in
  length (dump_entries default_world (table_keys hash)) <> size hash.
Proof.
  intros hash Heq.
  pose proof (proj1 (proj2 (proj2 (proj2
    (dump_count_and_lines default_world hash init_state)))) Heq 7%Z
    (ltac:(by exists tt) : is_Some (hash !! 7%Z))) as [_ Hrefs].
  by apply Hrefs.
Defined.

(** ** The life of an object *)

Section Lifecycle.

Implicit Types (trace : list (World * event)) (s : State) (obj : Z).

Lemma step_parsed w e s :
  parsed s = true ->
  display_flags (step (w, e) s) = display_flags s
  /\ parsed (step (w, e) s) = true.
Proof. apply (run_parsed [(w, e)]). Qed.

Lemma resolved_flags_of_parsed w s :
  parsed s = true -> resolved_flags w s = display_flags s.
Proof. unfold resolved_flags. by intros ->. Qed.

(** Two runs of the same foreign events, one of them from a state that has
    [obj] recorded in addition. *)
Lemma run_foreign_commutes obj trace s1 s2 :
  forallb (fun we => foreign obj we.2) trace = true ->
  parsed s1 = true -> parsed s2 = true ->
  display_flags s1 = display_flags s2 ->
  live_set s2 !! obj = None -> added_delta s2 !! obj = None ->
  gobject_list_state s1 = record_created obj (gobject_list_state s2) ->
  gobject_list_state (run trace s1)
  = record_created obj (gobject_list_state (run trace s2))
  /\ parsed (run trace s1) = true
  /\ display_flags (run trace s1) = display_flags s1
  /\ live_set (run trace s2) !! obj = None
  /\ added_delta (run trace s2) !! obj = None.
Proof.
  revert s1 s2.
  induction trace as [|[w e] trace IH];
    intros s1 s2 Hall Hp1 Hp2 Hflags Hlive Hadded Htables; [done|].
  cbn [forallb] in Hall. apply andb_prop in Hall as [He Hall]. cbn [run].
  destruct (step_parsed w e s1 Hp1) as [Hf1 Hp1'].
  destruct (step_parsed w e s2 Hp2) as [Hf2 Hp2'].
  assert (Hstep :
    gobject_list_state (step (w, e) s1)
    = record_created obj (gobject_list_state (step (w, e) s2))
    /\ live_set (step (w, e) s2) !! obj = None
    /\ added_delta (step (w, e) s2) !! obj = None).
  { unfold live_set, added_delta in *. rewrite !step_tables_actual.
    rewrite !resolved_flags_of_parsed, Hflags, Htables by done.
    destruct (gobject_list_state s2) as [o a r].
    unfold record_created, record_finalized, clear_deltas.
    cbn [objects added removed] in *.
    destruct e; cbn [foreign] in He; cbn [objects added removed];
      try done.
    - apply negb_true_iff, Z.eqb_neq in He.
      rewrite !(insert_insert_ne _ mini_object obj) by done.
      by rewrite !lookup_insert_ne.
    - apply negb_true_iff, Z.eqb_neq in He.
      rewrite !delete_insert_ne, !lookup_delete_ne by done.
      by rewrite lookup_insert_ne by done. }
  destruct Hstep as (Htables' & Hlive' & Hadded').
  destruct (IH (step (w, e) s1) (step (w, e) s2) Hall Hp1' Hp2'
              ltac:(by rewrite Hf1, Hf2) Hlive' Hadded' Htables')
    as (H1 & H2 & H3 & H4 & H5).
  by rewrite H3, Hf1.
Qed.

End Lifecycle.

(** X9. A transient object leaves no trace in the tables. Once the
    display configuration is parsed, recording an object at a free address,
    running any operations that do not concern it and take no check point,
    and finalizing it leaves the three tables as the same operations alone
    leave them. *)
Theorem transient_object_leaves_no_trace (w1 w2 : World) (obj : Z)
    (between : list (World * event)) (s : State) :
  parsed s = true ->
  live_set s !! obj = None ->
  added_delta s !! obj = None ->
  forallb (fun we => foreign obj we.2) between = true ->
  gobject_list_state
    (run ((w1, E_new_mini_object obj) :: between
          ++ [(w2, E_object_finalized obj)])%list s)
  = gobject_list_state (run between s).
Proof.
  intros Hparsed Hlive Hadded Hforeign.
  change (run ((w1, E_new_mini_object obj)
               :: between ++ [(w2, E_object_finalized obj)])%list s)
    with (run (between ++ [(w2, E_object_finalized obj)])%list
            (step (w1, E_new_mini_object obj) s)).
  set (s1 := step (w1, E_new_mini_object obj) s).
  destruct (step_parsed w1 (E_new_mini_object obj) s Hparsed) as [Hf1 Hp1].
  fold s1 in Hf1, Hp1.
  assert (Hmid : forall t1 t2 s0,
            run (t1 ++ t2)%list s0 = run t2 (run t1 s0)).
  { induction t1 as [|we t1 IH]; intros t2 s0; [done|]. apply IH. }
  rewrite Hmid. cbn [run].
  destruct (run_foreign_commutes obj between s1 s Hforeign Hp1 Hparsed Hf1
              Hlive Hadded (step_tables_actual w1 (E_new_mini_object obj) s))
    as (Htables & Hp & Hf & Hlive' & Hadded').
  rewrite step_tables_actual, Htables.
  unfold live_set, added_delta in Hlive', Hadded'.
  destruct (gobject_list_state (run between s)) as [o a r].
  unfold record_created, record_finalized. cbn [objects added removed] in *.
  rewrite !delete_insert_id by done. rewrite lookup_insert_eq.
  rewrite bool_decide_eq_false_2 by done. by rewrite andb_false_r.
Qed.

Lemma transient_object_leaves_no_trace_witness :
  let s := survivor_state default_world in
  let between := [(default_world, E_new_mini_object 6%Z);
                  (default_world, E_object_finalized 5%Z)] in
  gobject_list_state
    (run ((default_world, E_new_mini_object 9%Z) :: between
          ++ [(later_world, E_object_finalized 9%Z)])%list s)
  = gobject_list_state (run between s).
Proof.
  exact (transient_object_leaves_no_trace default_world later_world 9%Z
           [(default_world, E_new_mini_object 6%Z);
            (default_world, E_object_finalized 5%Z)]
           (survivor_state default_world) eq_refl eq_refl eq_refl eq_refl).
Defined.

(** X10. An object is live exactly when the last [new_mini_object] or
    [_object_finalized] on its address was [new_mini_object]: after any
    run, membership in the Live Set is decided by that event, or by the
    state before the run when there was none; no other operation, and no
    GObject entry point, adds to or removes from the table. *)
Theorem live_set_last_event (trace : list (World * event)) (obj : Z)
    (s : State) :
  bool_decide (is_Some (live_set (run trace s) !! obj))
  = live_after obj trace (bool_decide (is_Some (live_set s !! obj))).
Proof.
  revert s. induction trace as [|[w e] trace IH]; intros s; [done|].
  cbn [run]. rewrite IH. unfold live_set. rewrite step_tables_actual.
  destruct e; cbn [live_after]; try done.
  - unfold record_created. cbn [objects]. f_equal.
    destruct (Z.eqb_spec mini_object obj) as [->|Hne].
    + rewrite lookup_insert_eq. by apply bool_decide_eq_true_2.
    + by rewrite lookup_insert_ne.
  - unfold record_finalized. cbn [objects]. f_equal.
    destruct (Z.eqb_spec obj0 obj) as [->|Hne].
    + rewrite lookup_delete_eq. apply bool_decide_eq_false_2.
      by intros [? ?].
    + by rewrite lookup_delete_ne.
Qed.

(** X11. The size of the Live Set is the number of creations less the
    number of finalizations: over a run in which [new_mini_object] gets no
    address that is live and [_object_finalized] only live objects, the size
    after the run and the finalizations add up to the size before and the
    calls of [new_mini_object]. *)
Theorem live_set_size_accounting (trace : list (World * event)) (s : State) :
  balanced (dom (live_set s)) trace = true ->
  size (live_set (run trace s)) + count_events is_object_finalized trace
  = size (live_set s) + count_events is_new_mini_object trace.
Proof.
  revert s. induction trace as [|[w e] trace IH]; intros s Hbal;
    [cbn [run count_events]; lia|].
  cbn [run count_events].
  assert (Hother :
    is_new_mini_object e = false -> is_object_finalized e = false ->
    balanced (dom (live_set s)) trace = true ->
    size (live_set (run trace (step (w, e) s)))
    + count_events is_object_finalized trace
    = size (live_set s) + count_events is_new_mini_object trace).
  { intros Hn Hf Hbal'. rewrite IH.
    - unfold live_set. rewrite step_tables_actual. by destruct e.
    - unfold live_set. rewrite step_tables_actual.
      by destruct e. }
  destruct e; cbn [balanced] in Hbal;
    try (cbn [is_new_mini_object is_object_finalized Nat.add];
         rewrite Hother by done; lia).
  - apply andb_prop in Hbal as [Hfresh Hbal].
    apply bool_decide_eq_true_1, not_elem_of_dom in Hfresh.
    cbn [is_new_mini_object is_object_finalized Nat.add]. rewrite IH.
    + unfold live_set in *. rewrite step_tables_actual.
      unfold record_created. cbn [objects].
      rewrite map_size_insert_None by done. lia.
    + unfold live_set in *. rewrite step_tables_actual.
      unfold record_created. cbn [objects]. by rewrite dom_insert_L.
  - apply andb_prop in Hbal as [Hlive Hbal].
    apply bool_decide_eq_true_1, elem_of_dom in Hlive.
    cbn [is_new_mini_object is_object_finalized Nat.add].
    assert (Hsize : size (live_set s)
                    = S (size (live_set (step (w, E_object_finalized obj) s)))).
    { unfold live_set in *. rewrite step_tables_actual.
      unfold record_finalized. cbn [objects].
      destruct Hlive as [[] Hlive].
      rewrite <- (insert_delete_id _ _ _ Hlive) at 1.
      rewrite map_size_insert_None by apply lookup_delete_eq. done. }
    rewrite Hsize.
    assert (Hdom : dom (live_set (step (w, E_object_finalized obj) s))
                   = dom (live_set s) ∖ {[obj]}).
    { unfold live_set. rewrite step_tables_actual.
      unfold record_finalized. cbn [objects]. by rewrite dom_delete_L. }
    specialize (IH (step (w, E_object_finalized obj) s)).
    rewrite Hdom in IH. specialize (IH Hbal). lia.
Qed.

Lemma live_set_size_accounting_witness :
  let trace := [(default_world, E_new_mini_object 5%Z);
                (default_world, E_g_object_new 8%Z);
                (default_world, E_new_mini_object 6%Z);
                (default_world, E_sig_usr2);
                (default_world, E_object_finalized 5%Z);
                (default_world, E_new_mini_object 5%Z)] in
  size (live_set (run trace init_state)) + 1 = 0 + 3.
Proof.
  exact (live_set_size_accounting
           [(default_world, E_new_mini_object 5%Z);
            (default_world, E_g_object_new 8%Z);
            (default_world, E_new_mini_object 6%Z);
            (default_world, E_sig_usr2);
            (default_world, E_object_finalized 5%Z);
            (default_world, E_new_mini_object 5%Z)]
           init_state eq_refl).
Defined.

(** X12. An address that is used again is reported twice. When an object
    that is not in the Added-Delta is finalized with the creation category
    displayed, and [new_mini_object] then records a new object at the same
    address, the address is in the Added-Delta and, with the type name of
    the old object, in the Removed-Delta, and in the Live Set. *)
Theorem reused_address_added_and_removed (w1 w2 : World) (obj : Z)
    (s : State) :
  enabled (resolved_flags w1 s) DISPLAY_FLAG_CREATE = true ->
  added_delta s !! obj = None ->
  let s' := run [(w1, E_object_finalized obj); (w2, E_new_mini_object obj)] s in
  live_set s' !! obj = Some tt
  /\ added_delta s' !! obj = Some tt
  /\ removed_delta s' !! obj = Some (G_OBJECT_TYPE_NAME w1 obj).
Proof.
  intros Hcreate Hadded. cbn zeta. cbn [run].
  unfold live_set, added_delta, removed_delta in *.
  rewrite !step_tables_actual, Hcreate.
  unfold record_created, record_finalized. cbn [objects added removed].
  rewrite Hadded, bool_decide_eq_true_2 by done. cbn [andb].
  by rewrite !lookup_insert_eq.
Qed.

Lemma reused_address_added_and_removed_witness :
  let s' := run [(default_world, E_object_finalized 5%Z);
                 (later_world, E_new_mini_object 5%Z)]
              (survivor_state default_world) in
  added_delta s' !! 5%Z = Some tt
  /\ removed_delta s' !! 5%Z = Some "GstBuffer".
Proof.
  exact (proj2 (reused_address_added_and_removed default_world later_world 5%Z
                  (survivor_state default_world) eq_refl eq_refl)).
Defined.

(** X13. The finalization callback does not ask whether the object is
    tracked. Run on an object that is in neither the Live Set nor the
    Added-Delta, with the creation category displayed, it leaves those two
    tables as they are and records the object as removed. *)
Theorem finalized_untracked_is_recorded (w : World) (obj : Z) (s : State) :
  enabled (resolved_flags w s) DISPLAY_FLAG_CREATE = true ->
  live_set s !! obj = None ->
  added_delta s !! obj = None ->
  let s' := exec (_object_finalized w obj) s in
  live_set s' = live_set s
  /\ added_delta s' = added_delta s
  /\ removed_delta s' = <[obj := G_OBJECT_TYPE_NAME w obj]> (removed_delta s).
Proof.
  intros Hcreate Hlive Hadded. cbn zeta.
  unfold live_set, added_delta, removed_delta in *.
  rewrite object_finalized_tables, Hcreate.
  unfold record_finalized. cbn [objects added removed].
  rewrite Hadded, bool_decide_eq_true_2 by done.
  by rewrite !delete_id.
Qed.

Lemma finalized_untracked_is_recorded_witness :
  removed_delta (exec (_object_finalized default_world 9%Z) init_state)
  = <[9%Z := "GstBuffer"]> ∅.
Proof.
  exact (proj2 (proj2 (finalized_untracked_is_recorded default_world 9%Z
                         init_state eq_refl eq_refl eq_refl))).
Defined.

(** X14. The finalization callback is registered once for each call of
    [new_mini_object] and by nothing else: after any run, the number of
    registrations on an address is the number before the run plus the
    number of calls of [new_mini_object] on that address. *)
Theorem weak_refs_count (trace : list (World * event)) (obj : Z)
    (s : State) :
  count_occ Z.eq_dec (weak_refs (run trace s)) obj
  = count_occ Z.eq_dec (weak_refs s) obj + count_events (registers obj) trace.
Proof.
  revert s. induction trace as [|[w e] trace IH]; intros s;
    [cbn [run count_events]; lia|].
  cbn [run count_events]. rewrite IH, step_weak_refs.
  destruct e; cbn [registers]; try lia.
  cbn [count_occ].
  destruct (Z.eq_dec mini_object obj) as [->|Hne].
  - rewrite Z.eqb_refl. lia.
  - apply Z.eqb_neq in Hne. rewrite Hne. lia.
Qed.

(** ** The deltas and their events *)

Section DeltaEvents.

Implicit Types (trace : list (World * event)) (s : State) (obj : Z).

Lemma run_added_event trace s obj :
  is_Some (added_delta (run trace s) !! obj) ->
  is_Some (added_delta s !! obj)
  \/ exists w, (w, E_new_mini_object obj) ∈ trace.
Proof.
  revert s. induction trace as [|[w e] trace IH]; intros s Hin; [by left|].
  cbn [run] in Hin. destruct (IH _ Hin) as [Hstep|[w' Hev]].
  - unfold added_delta in *. rewrite step_tables_actual in Hstep.
    destruct e; try (by left).
    + unfold record_created in Hstep. cbn [added] in Hstep.
      destruct (decide (mini_object = obj)) as [->|Hne].
      * right. exists w. apply list_elem_of_here.
      * left. by rewrite lookup_insert_ne in Hstep.
    + unfold record_finalized in Hstep. cbn [added] in Hstep. left.
      destruct (decide (obj0 = obj)) as [->|Hne].
      * rewrite lookup_delete_eq in Hstep. by destruct Hstep.
      * by rewrite lookup_delete_ne in Hstep.
    + unfold clear_deltas in Hstep. cbn [added] in Hstep.
      rewrite lookup_empty in Hstep. by destruct Hstep.
  - right. exists w'. by apply list_elem_of_further.
Qed.

Lemma run_removed_event trace s obj type :
  removed_delta (run trace s) !! obj = Some type ->
  removed_delta s !! obj = Some type
  \/ exists w, (w, E_object_finalized obj) ∈ trace
               /\ type = G_OBJECT_TYPE_NAME w obj.
Proof.
  revert s. induction trace as [|[w e] trace IH]; intros s Hin; [by left|].
  cbn [run] in Hin. destruct (IH _ Hin) as [Hstep|(w' & Hev & Htype)].
  - unfold removed_delta in *. rewrite step_tables_actual in Hstep.
    destruct e; try (by left).
    + unfold record_finalized in Hstep. cbn [removed] in Hstep.
      destruct (_ && _); [|by left].
      destruct (decide (obj0 = obj)) as [->|Hne].
      * rewrite lookup_insert_eq in Hstep. injection Hstep as <-.
        right. exists w. split; [apply list_elem_of_here | done].
      * left. by rewrite lookup_insert_ne in Hstep.
  - right. exists w'. split; [by apply list_elem_of_further | done].
Qed.

End DeltaEvents.

(** X15. What a check point finds in the deltas happened since the check
    point before it: after a check point and any run of operations, an
    address in the Added-Delta was handed to [new_mini_object] in that run,
    and an entry of the Removed-Delta was put there by a finalization of
    that run, with the type name read in the world of that finalization. *)
Theorem deltas_since_checkpoint (w0 : World) (after : list (World * event))
    (obj : Z) (s : State) :
  let s' := run ((w0, E_sig_usr2) :: after) s in
  (is_Some (added_delta s' !! obj) ->
   exists w, (w, E_new_mini_object obj) ∈ after)
  /\ (forall type,
        removed_delta s' !! obj = Some type ->
        exists w, (w, E_object_finalized obj) ∈ after
                  /\ type = G_OBJECT_TYPE_NAME w obj).
Proof.
  cbn zeta. cbn [run]. split.
  - intros Hin. destruct (run_added_event _ _ _ Hin) as [Hs|Hev]; [|done].
    unfold added_delta in Hs. rewrite step_tables_actual in Hs.
    unfold clear_deltas in Hs. cbn [added] in Hs.
    rewrite lookup_empty in Hs. by destruct Hs.
  - intros type Hin.
    destruct (run_removed_event _ _ _ _ Hin) as [Hs|Hev]; [|done].
    unfold removed_delta in Hs. rewrite step_tables_actual in Hs.
    unfold clear_deltas in Hs. cbn [removed] in Hs.
    by rewrite lookup_empty in Hs.
Qed.

Lemma deltas_since_checkpoint_witness :
  exists w, (w, E_object_finalized 5%Z)
            ∈ [(default_world, E_new_mini_object 6%Z);
               (later_world, E_object_finalized 5%Z)]
            /\ "GstQuery" = G_OBJECT_TYPE_NAME w 5%Z.
Proof.
  exact (proj2 (deltas_since_checkpoint default_world
                  [(default_world, E_new_mini_object 6%Z);
                   (later_world, E_object_finalized 5%Z)]
                  5%Z
                  (run [(default_world, E_new_mini_object 5%Z)] init_state))
           "GstQuery" eq_refl).
Defined.

(** ** Dumps and configuration *)

Section DumpsAndConfiguration.

Lemma dump_entries_ext w1 w2 keys :
  (forall obj, ref_count w1 obj = ref_count w2 obj) ->
  dump_entries w1 keys = dump_entries w2 keys.
Proof.
  intros Hrefs. induction keys as [|k keys IH]; cbn [dump_entries]; [done|].
  by rewrite IH, Hrefs.
Qed.

End DumpsAndConfiguration.

(** X16. The dumps obey no filter. The live dump, the check point and the
    report at the end of the process call neither [display_filter] nor
    [object_filter] and read no variable of the environment: run on the same
    objects, they give the same lines and the same state whatever
    [GOBJECT_LIST_DISPLAY] and [GOBJECT_LIST_FILTER] hold. A line of the dump
    stands for what is printed of the object at its address, read from that
    object, which is the same in both worlds. None of the three touches the
    statics of [display_filter], so a dump that comes first leaves the
    configuration to be parsed, or the registered callbacks. *)
Theorem dumps_ignore_configuration (w : World) (display filter : option string)
    (s : State) :
  let w' := with_configuration display filter w in
  (_sig_usr1_handler w' s = _sig_usr1_handler w s
   /\ _sig_usr2_handler w' s = _sig_usr2_handler w s
   /\ print_still_alive w' s = print_still_alive w s)
  /\ (parsed (exec (_sig_usr1_handler w) s) = parsed s
      /\ parsed (exec (_sig_usr2_handler w) s) = parsed s
      /\ parsed (exec (print_still_alive w) s) = parsed s)
  /\ (display_flags (exec (_sig_usr1_handler w) s) = display_flags s
      /\ display_flags (exec (_sig_usr2_handler w) s) = display_flags s
      /\ display_flags (exec (print_still_alive w) s) = display_flags s)
  /\ (weak_refs (exec (_sig_usr1_handler w) s) = weak_refs s
      /\ weak_refs (exec (_sig_usr2_handler w) s) = weak_refs s
      /\ weak_refs (exec (print_still_alive w) s) = weak_refs s).
Proof.
  cbn zeta. destruct s as [f p [o a r] refs out]. open_ops.
  rewrite !(dump_entries_ext (with_configuration display filter w) w)
    by done.
  cbn [with_configuration g_get_prgname]. done.
Qed.

(** ** Backtraces *)

Section Backtraces.

Context (w : World).

Implicit Types (s : State) (e : event).

Lemma dump_entries_no_backtrace keys :
  Forall (fun l => is_backtrace l = false) (dump_entries w keys).
Proof.
  apply Forall_forall. intros l Hl.
  by apply dump_entries_lines in Hl as (? & ? & ->).
Qed.

(** Solves the goal on the lines an operation prints, once the operation is
    run: the lines are read off the output, and none is a backtrace unless
    the tests that were split say that it is printed. *)
Ltac no_backtrace_lines :=
  rewrite <- ?app_assoc;
  (eexists; split; [reflexivity || (symmetry; apply app_nil_r)|]);
  rewrite ?Forall_app, ?Forall_cons, ?Forall_fmap;
  repeat split;
  first [ done
        | apply dump_entries_no_backtrace
        | by apply Forall_true
        | by rewrite ?andb_false_r in *
        | simpl in *; congruence ].

Lemma step_no_backtrace_flags e s :
  parsed s = true ->
  enabled (display_flags s) DISPLAY_FLAG_CREATE
  && enabled (display_flags s) DISPLAY_FLAG_BACKTRACE = false ->
  exists lines,
    output (step (w, e) s) = (output s ++ lines)%list
    /\ Forall (fun l => is_backtrace l = false) lines.
Proof.
  destruct s as [f p [o a r] refs out]. cbn [parsed display_flags].
  intros -> Hflags.
  destruct e; open_ops; rewrite ?object_filter_always_false, ?andb_false_r;
    run_ops; no_backtrace_lines.
Qed.

Lemma step_no_backtrace_build e s :
  HAVE_LIBUNWIND w = false ->
  exists lines,
    output (step (w, e) s) = (output s ++ lines)%list
    /\ Forall (fun l => is_backtrace l = false) lines.
Proof.
  destruct s as [f p [o a r] refs out]. intros Hbuild.
  destruct e; open_ops; rewrite ?object_filter_always_false, ?andb_false_r;
    run_ops; no_backtrace_lines.
Qed.

End Backtraces.

Section BacktraceRuns.

Implicit Types (trace : list (World * event)) (s : State).

Lemma run_no_backtrace_flags trace s :
  parsed s = true ->
  enabled (display_flags s) DISPLAY_FLAG_CREATE
  && enabled (display_flags s) DISPLAY_FLAG_BACKTRACE = false ->
  exists lines,
    output (run trace s) = (output s ++ lines)%list
    /\ Forall (fun l => is_backtrace l = false) lines.
Proof.
  revert s. induction trace as [|[w e] trace IH]; intros s Hparsed Hflags.
  - exists []. by rewrite app_nil_r.
  - cbn [run].
    destruct (step_no_backtrace_flags w e s Hparsed Hflags)
      as (lines1 & Hout1 & Hq1).
    destruct (run_parsed [(w, e)] s Hparsed) as [Hf Hp]. cbn [run] in Hf, Hp.
    destruct (IH (step (w, e) s) Hp ltac:(by rewrite Hf))
      as (lines2 & Hout2 & Hq2).
    exists (lines1 ++ lines2)%list. split.
    + by rewrite Hout2, Hout1, app_assoc.
    + by apply Forall_app.
Qed.

Lemma run_no_backtrace_build trace s :
  forallb (fun we => negb (HAVE_LIBUNWIND we.1)) trace = true ->
  exists lines,
    output (run trace s) = (output s ++ lines)%list
    /\ Forall (fun l => is_backtrace l = false) lines.
Proof.
  revert s. induction trace as [|[w e] trace IH]; intros s Hall.
  - exists []. by rewrite app_nil_r.
  - cbn [forallb] in Hall. apply andb_prop in Hall as [Hw Hall].
    apply negb_true_iff in Hw. cbn [fst] in Hw. cbn [run].
    destruct (step_no_backtrace_build w e s Hw) as (lines1 & Hout1 & Hq1).
    destruct (IH (step (w, e) s) Hall) as (lines2 & Hout2 & Hq2).
    exists (lines1 ++ lines2)%list. split.
    + by rewrite Hout2, Hout1, app_assoc.
    + by apply Forall_app.
Qed.

End BacktraceRuns.

(** X23. A backtrace is printed only by a build with libunwind and only
    when both the creation and the backtrace category are displayed: with
    the configuration parsed and one of the two categories off, or in
    worlds built without libunwind, no run of operations adds a backtrace to
    the output. The backtrace category alone prints nothing. *)
Theorem backtrace_needs_create (trace : list (World * event)) (s : State) :
  (parsed s = true ->
   enabled (display_flags s) DISPLAY_FLAG_CREATE
   && enabled (display_flags s) DISPLAY_FLAG_BACKTRACE = false ->
   exists lines,
     output (run trace s) = (output s ++ lines)%list
     /\ Forall (fun l => is_backtrace l = false) lines)
  /\ (forallb (fun we => negb (HAVE_LIBUNWIND we.1)) trace = true ->
      exists lines,
        output (run trace s) = (output s ++ lines)%list
        /\ Forall (fun l => is_backtrace l = false) lines).
Proof.
  split; [apply run_no_backtrace_flags | apply run_no_backtrace_build].
Qed.

Lemma backtrace_needs_create_witness :
  let w := example_world (Some "backtrace,refs") None "GstBuffer" in
  let s := exec (display_filter w DISPLAY_FLAG_BACKTRACE) init_state in
  exists lines,
    output (run [(w, E_new_mini_object 5%Z); (w, E_object_finalized 5%Z)] s)
    = (output s ++ lines)%list
    /\ Forall (fun l => is_backtrace l = false) lines.
Proof.
  exact (proj1 (backtrace_needs_create
                  [(example_world (Some "backtrace,refs") None "GstBuffer",
                    E_new_mini_object 5%Z);
                   (example_world (Some "backtrace,refs") None "GstBuffer",
                    E_object_finalized 5%Z)]
                  (exec (display_filter
                           (example_world (Some "backtrace,refs") None
                              "GstBuffer") DISPLAY_FLAG_BACKTRACE)
                     init_state))
           eq_refl eq_refl).
Defined.

(** ** Start and end of the process *)

Section ProcessSteps.

Context (l : Linker) (host : World).

Implicit Types (p : Process) (ev : process_event) (sig : signum).

Lemma lookup_symbol_result handle func_name p :
  status p = Running ->
  lookup_symbol l handle func_name p
  = match dlerror_after_dlsym l handle func_name with
    | Some error =>
        (None, set_status (Aborted (Failed_to_find_symbol error)) p)
    | None => (Some (dlsym l handle func_name), p)
    end.
Proof. unfold lookup_symbol. by intros ->. Qed.

Lemma lookup_symbol_dead handle func_name p :
  status p <> Running -> lookup_symbol l handle func_name p = (None, p).
Proof. unfold lookup_symbol. by destruct (status p). Qed.

(** A call of [get_func] that finds the handle set is the look-up alone. *)
Lemma get_func_again func_name p :
  get_func_handle p <> NULL ->
  get_func l func_name p = lookup_symbol l (get_func_handle p) func_name p.
Proof.
  intros Hhandle. unfold get_func.
  by apply Z.eqb_neq in Hhandle as ->.
Qed.

(** The look-up changes the status at most. *)
Lemma lookup_symbol_frame handle func_name p :
  let p' := (lookup_symbol l handle func_name p).2 in
  tracker p' = tracker p
  /\ get_func_handle p' = get_func_handle p
  /\ get_gst_func_handle p' = get_gst_func_handle p
  /\ tables_allocated p' = tables_allocated p
  /\ dispositions p' = dispositions p
  /\ atexit_exiting p' = atexit_exiting p
  /\ environ p' = environ p
  /\ (status p' = Running -> status p = Running).
Proof.
  unfold lookup_symbol. destruct (status p) eqn:Hst; cbn [snd];
    [|by rewrite ?Hst..].
  destruct (dlerror_after_dlsym l handle func_name); cbn [snd];
    by rewrite ?Hst.
Qed.

Lemma get_func_stage env0 func_name p :
  status p = Running ->
  uninitialised env0 p \/ initialised env0 p ->
  let p' := (get_func l func_name p).2 in
  (uninitialised env0 p' /\ status p' <> Running) \/ initialised env0 p'.
Proof.
  intros Hrun Hstage. cbn zeta.
  destruct Hstage as [(Halloc & Hh & Hexit & Hdisp & Henv)
                     |(Halloc & Hh & Hexit & Hdisp & Henv)].
  - unfold get_func. rewrite Hh. cbn [Z.eqb NULL].
    unfold get_func_init.
    destruct (Z.eqb_spec (dlopen l "libgobject-2.0.so.0") NULL) as [Hopen|Hopen].
    + left. rewrite lookup_symbol_dead by done. cbn [snd].
      by repeat split.
    + right.
      match goal with
      | |- initialised _ (lookup_symbol _ _ _ ?q).2 =>
          pose proof (lookup_symbol_frame (get_func_handle q) func_name q)
            as (_ & H1 & _ & H2 & H3 & H4 & H5 & H6)
      end.
      cbn zeta in *.
      unfold initialised. rewrite H1, H2, H3, H4, H5.
      cbn [get_func_handle tables_allocated dispositions atexit_exiting
           environ].
      rewrite Hexit, Henv. repeat split; try done.
      intros _ sig. specialize (Hdisp sig).
      destruct sig; cbn [signal installed_handler]; done.
  - right. rewrite get_func_again by done.
    pose proof (lookup_symbol_frame (get_func_handle p) func_name p)
      as (_ & H1 & _ & H2 & H3 & H4 & H5 & H6).
    cbn zeta in *. unfold initialised. rewrite H1, H2, H3, H4, H5.
    repeat split; try done. intros Hrun'. by apply Hdisp.
Qed.




End ProcessSteps.

Section ProcessRuns.

Context (l : Linker) (host : World).

Implicit Types (p : Process) (ev : process_event) (sig : signum)
  (evs : list process_event).

Lemma get_gst_func_frame func_name p :
  let p' := (get_gst_func l func_name p).2 in
  tracker p' = tracker p
  /\ get_func_handle p' = get_func_handle p
  /\ tables_allocated p' = tables_allocated p
  /\ dispositions p' = dispositions p
  /\ atexit_exiting p' = atexit_exiting p
  /\ environ p' = environ p
  /\ (status p' = Running -> status p = Running).
Proof.
  cbn zeta. unfold get_gst_func.
  match goal with
  | |- context [lookup_symbol l ?h func_name ?q] =>
      pose proof (lookup_symbol_frame l h func_name q)
        as (H1 & H2 & _ & H3 & H4 & H5 & H6 & H7)
  end.
  cbn zeta in *. rewrite H1, H2, H3, H4, H5, H6.
  unfold get_gst_func_init in *.
  destruct (get_gst_func_handle p =? NULL)%Z;
    [destruct (dlopen l "libgstreamer-1.0.so.0" =? NULL)%Z|];
    repeat split; try done; intros Hrun; by apply H7 in Hrun.
Qed.

Lemma call_tracker_stage {A} env0 func_name (body : World -> M A) p :
  status p = Running ->
  uninitialised env0 p \/ initialised env0 p ->
  let p' := (call_tracker l host func_name body p).2 in
  (uninitialised env0 p' /\ status p' <> Running) \/ initialised env0 p'.
Proof.
  intros Hrun Hstage. cbn zeta. unfold call_tracker.
  pose proof (get_func_stage l env0 func_name p Hrun Hstage) as Hget.
  cbn zeta in Hget.
  destruct (get_func l func_name p) as [[f|] p1]; cbn [snd] in *; [|done].
  destruct (body (world_of host p1) (tracker p1)) as [a t]. cbn [snd].
  destruct Hget as [[Hun Hdead]|Hin]; [left | right]; [split; [|done]|];
    unfold uninitialised, initialised in *; by cbn.
Qed.

Lemma process_step_stage env0 ev p :
  uninitialised env0 p \/ initialised env0 p ->
  uninitialised env0 (process_step l host ev p)
  \/ initialised env0 (process_step l host ev p).
Proof.
  intros Hstage. unfold process_step.
  destruct (status p) eqn:Hrun; [|done..].
  destruct ev.
  - destruct (call_tracker_stage env0 "g_object_new_valist"
                (fun w => g_object_new w obj) p Hrun Hstage)
      as [[H _]|H]; [by left | by right].
  - destruct (call_tracker_stage env0 "g_object_ref"
                (fun w => g_object_ref w obj) p Hrun Hstage)
      as [[H _]|H]; [by left | by right].
  - destruct (call_tracker_stage env0 "g_object_unref"
                (fun w => g_object_unref w obj) p Hrun Hstage)
      as [[H _]|H]; [by left | by right].
  - pose proof (get_gst_func_frame func_name p)
      as (_ & H1 & H2 & H3 & H4 & H5 & H6).
    cbn zeta in *. unfold uninitialised, initialised in *.
    rewrite H1, H2, H3, H4, H5. destruct Hstage as [Hs|Hs]; [by left|].
    right. destruct Hs as (? & ? & ? & Hdisp & ?). repeat split; try done.
    intros _. by apply Hdisp.
  - unfold deliver.
    destruct Hstage as [(Ha & Hh & He & Hd & Henv)
                       |(Ha & Hh & He & Hd & Henv)].
    + left. specialize (Hd sig) as Hsig.
      destruct (dispositions p sig); try done.
    + right. destruct (dispositions p sig);
        unfold initialised; cbn; repeat split; try done.
      all: intros Hrun'; by apply Hd.
  - unfold process_exit. destruct Hstage as [Hs|Hs]; [left | right];
      unfold uninitialised, initialised in *; cbn; [done|].
    destruct Hs as (? & ? & ? & _ & ?). by repeat split.
Qed.

Lemma process_run_stage env0 evs p :
  uninitialised env0 p \/ initialised env0 p ->
  uninitialised env0 (process_run l host evs p)
  \/ initialised env0 (process_run l host evs p).
Proof.
  revert p. induction evs as [|ev evs IH]; intros p Hstage; [done|].
  cbn [process_run]. by apply IH, process_step_stage.
Qed.

Lemma fresh_process_uninitialised env d :
  (forall sig, tracker_handler (d sig) = false) ->
  uninitialised env (fresh_process env d).
Proof. intros Hd. by repeat split. Qed.


(** Without a call of a GObject entry point the process stays as it
    started. *)
Lemma process_run_without_gobject env0 evs p :
  forallb (fun ev => negb (is_gobject_call ev)) evs = true ->
  uninitialised env0 p ->
  let p' := process_run l host evs p in
  uninitialised env0 p' /\ tracker p' = tracker p.
Proof.
  revert p. induction evs as [|ev evs IH]; intros p Hall Hun; [done|].
  cbn [forallb] in Hall. apply andb_prop in Hall as [Hev Hall].
  cbn zeta. cbn [process_run].
  assert (Hstep : uninitialised env0 (process_step l host ev p)
                  /\ tracker (process_step l host ev p) = tracker p).
  { unfold process_step. destruct (status p) eqn:Hrun; [|done..].
    destruct Hun as (Ha & Hh & He & Hd & Henv).
    destruct ev; try done.
    - pose proof (get_gst_func_frame func_name p)
        as (H0 & H1 & H2 & H3 & H4 & H5 & H6).
      cbn zeta in *. unfold uninitialised.
      by rewrite H0, H1, H2, H3, H4, H5.
    - unfold deliver. specialize (Hd sig) as Hsig.
      destruct (dispositions p sig); try done.
    - unfold process_exit, uninitialised. cbn. by rewrite He. }
  destruct Hstep as [Hun' Htracker].
  destruct (IH _ Hall Hun') as [Hun'' Htracker'].
  split; [done|]. by rewrite Htracker', Htracker.
Qed.

End ProcessRuns.

(** X17. [get_func] sets the process up once. After a call that returned
    a function, every later call, whatever the linker does by then, is the
    look-up of the symbol alone: it does not open the library again and
    leaves the tables, the signal handlers, the exit functions, the
    environment and the handle as they are. *)
Theorem get_func_once (l1 l2 : Linker) (name1 name2 : string) (f : Z)
    (p p1 : Process) :
  status p = Running ->
  get_func l1 name1 p = (Some f, p1) ->
  let p2 := (get_func l2 name2 p1).2 in
  get_func l2 name2 p1 = lookup_symbol l2 (get_func_handle p1) name2 p1
  /\ tracker p2 = tracker p1
  /\ tables_allocated p2 = tables_allocated p1
  /\ dispositions p2 = dispositions p1
  /\ atexit_exiting p2 = atexit_exiting p1
  /\ environ p2 = environ p1
  /\ get_func_handle p2 = get_func_handle p1.
Proof.
  intros Hrun Hget. cbn zeta.
  assert (Hhandle : get_func_handle p1 <> NULL).
  { unfold get_func in Hget.
    destruct (Z.eqb_spec (get_func_handle p) NULL) as [Hnull|Hset].
    - unfold get_func_init in Hget.
      destruct (Z.eqb_spec (dlopen l1 "libgobject-2.0.so.0") NULL)
        as [Hopen|Hopen].
      + by rewrite lookup_symbol_dead in Hget.
      + match type of Hget with
        | lookup_symbol _ ?h _ ?q = _ =>
            pose proof (lookup_symbol_frame l1 h name1 q) as (_ & H1 & _)
        end.
        rewrite Hget in H1. cbn [snd get_func_handle] in H1. by rewrite H1.
    - pose proof (lookup_symbol_frame l1 (get_func_handle p) name1 p)
        as (_ & H1 & _).
      rewrite Hget in H1. cbn [snd] in H1. by rewrite H1. }
  rewrite get_func_again by done.
  pose proof (lookup_symbol_frame l2 (get_func_handle p1) name2 p1)
    as (H0 & H1 & _ & H2 & H3 & H4 & H5 & _).
  done.
Qed.

Lemma get_func_once_witness :
  let p := fresh_process example_environ (fun _ => SIG_DFL) in
  let p1 := (get_func example_linker "g_object_ref" p).2 in
  let broken := {| dlopen := fun _ => NULL; dlsym := fun _ _ => 7%Z;
                   dlerror_after_dlsym := fun _ _ => None |} in
  get_func broken "g_object_unref" p1 = (Some 7%Z, p1).
Proof.
  intros p p1 broken.
  rewrite (proj1 (get_func_once example_linker broken "g_object_ref"
                    "g_object_unref" 101%Z p p1 eq_refl eq_refl)).
  reflexivity.
Defined.

(** X18. [get_func] returns a function exactly when the process is still
    running afterwards. When the first call cannot open the library, the
    process is aborted before anything is installed: no table, no signal
    handler, no exit function, and the environment as it was. *)
Theorem get_func_failure (l : Linker) (func_name : string) (p : Process) :
  status p = Running ->
  let r := (get_func l func_name p).1 in
  let p' := (get_func l func_name p).2 in
  (is_Some r <-> status p' = Running)
  /\ (get_func_handle p = NULL ->
      dlopen l "libgobject-2.0.so.0" = NULL ->
      r = None
      /\ p' = set_status (Aborted (Failed_to_open "libgobject-2.0.so.0")) p).
Proof.
  intros Hrun. cbn zeta. split.
  - unfold get_func.
    match goal with
    | |- context [lookup_symbol l ?h func_name ?q] =>
        destruct (status q) eqn:Hq;
          [rewrite (lookup_symbol_result l h func_name q Hq)
          |rewrite (lookup_symbol_dead l h func_name q)
             by (rewrite Hq; done)..]
    end.
    + destruct (dlerror_after_dlsym l _ func_name); cbn [fst snd].
      * split; [by intros [? ?] | done].
      * split; [done | by eexists].
    + cbn [fst snd]. rewrite Hq. split; [by intros [? ?] | done].
    + cbn [fst snd]. rewrite Hq. split; [by intros [? ?] | done].
    + cbn [fst snd]. rewrite Hq. split; [by intros [? ?] | done].
  - intros Hnull Hopen. unfold get_func, get_func_init.
    rewrite Hnull, Hopen. cbn [Z.eqb NULL].
    by rewrite lookup_symbol_dead.
Qed.

Lemma get_func_failure_witness :
  let p := fresh_process example_environ (fun _ => Handler_host) in
  let l := {| dlopen := fun _ => NULL; dlsym := fun _ _ => 7%Z;
              dlerror_after_dlsym := fun _ _ => None |} in
  (get_func l "g_object_ref" p).2
  = set_status (Aborted (Failed_to_open "libgobject-2.0.so.0")) p.
Proof.
  intros p l.
  exact (proj2 (proj2 (get_func_failure l "g_object_ref" p eq_refl)
                  eq_refl eq_refl)).
Defined.

(** X19. The code that dumps the tables can only run once the tables are
    allocated. In every state of a process that started without handlers of
    the tracker: while the tables are not allocated, no signal is bound to a
    handler of the tracker and [_exiting] is not registered; once they are,
    [_exiting] is registered exactly once, however many calls were
    intercepted, and while the process runs each of the six signals is bound
    to its handler. *)
Theorem handlers_need_tables (l : Linker) (host : World)
    (evs : list process_event) (env : gmap string string)
    (d : signum -> sighandler) :
  (forall sig, tracker_handler (d sig) = false) ->
  let p := process_run l host evs (fresh_process env d) in
  (tables_allocated p = false ->
   atexit_exiting p = 0
   /\ forall sig, tracker_handler (dispositions p sig) = false)
  /\ (tables_allocated p = true ->
      atexit_exiting p = 1
      /\ (status p = Running ->
          forall sig, dispositions p sig = installed_handler sig)).
Proof.
  intros Hd. cbn zeta.
  destruct (process_run_stage l host env evs _
              (or_introl (fresh_process_uninitialised env d Hd)))
    as [(Ha & _ & He & Hdisp & _)|(Ha & _ & He & Hdisp & _)];
    rewrite Ha; by split.
Qed.

Lemma handlers_need_tables_witness :
  let p := process_run example_linker default_world
             [P_get_gst_func "gst_buffer_new"; P_g_object_ref 5%Z;
              P_g_object_new 6%Z; P_g_object_unref 5%Z]
             (fresh_process example_environ (fun _ => Handler_host)) in
  atexit_exiting p = 1 /\ dispositions p SIGUSR2 = Handler_sig_usr2.
Proof.
  intros p.
  pose proof (proj2 (handlers_need_tables example_linker default_world
                [P_get_gst_func "gst_buffer_new"; P_g_object_ref 5%Z;
                 P_g_object_new 6%Z; P_g_object_unref 5%Z]
                example_environ (fun _ => Handler_host) (fun _ => eq_refl))
              eq_refl) as [Hexit Hdisp].
  exact (conj Hexit (Hdisp eq_refl SIGUSR2)).
Defined.

(** X20. [LD_PRELOAD] is taken out of the environment when the tables are
    allocated, and only then and only it: in every state of the process the
    environment is the one it started with while the tables are not
    allocated, and afterwards the same without [LD_PRELOAD], or the very
    same when [GOBJECT_PROPAGATE_LD_PRELOAD] is set. *)
Theorem ld_preload_removed (l : Linker) (host : World)
    (evs : list process_event) (env : gmap string string)
    (d : signum -> sighandler) :
  (forall sig, tracker_handler (d sig) = false) ->
  let p := process_run l host evs (fresh_process env d) in
  (tables_allocated p = false -> environ p = env)
  /\ (tables_allocated p = true ->
      (env !! "GOBJECT_PROPAGATE_LD_PRELOAD" = None ->
       environ p !! "LD_PRELOAD" = None
       /\ forall key, key <> "LD_PRELOAD" -> environ p !! key = env !! key)
      /\ (is_Some (env !! "GOBJECT_PROPAGATE_LD_PRELOAD") -> environ p = env)).
Proof.
  intros Hd. cbn zeta.
  destruct (process_run_stage l host env evs _
              (or_introl (fresh_process_uninitialised env d Hd)))
    as [(Ha & _ & _ & _ & Henv)|(Ha & _ & _ & _ & Henv)];
    rewrite Ha, Henv; (split; [done|]); [done|]; intros _.
  unfold without_preload. split.
  - intros ->. split; [apply lookup_delete_eq|].
    intros key Hkey. by rewrite lookup_delete_ne.
  - by intros [v ->].
Qed.

Lemma ld_preload_removed_witness :
  let p := process_run example_linker default_world
             [P_g_object_ref 5%Z; P_signal SIGUSR1]
             (fresh_process example_environ (fun _ => SIG_DFL)) in
  environ p !! "LD_PRELOAD" = None /\ environ p !! "HOME" = Some "/root".
Proof.
  intros p.
  pose proof (proj1 (proj2 (ld_preload_removed example_linker default_world
                [P_g_object_ref 5%Z; P_signal SIGUSR1]
                example_environ (fun _ => SIG_DFL) (fun _ => eq_refl))
              eq_refl) eq_refl) as [Hpreload Hother].
  exact (conj Hpreload (Hother "HOME" ltac:(discriminate))).
Defined.



(** X22. [get_gst_func] does not set the tracker up. A process that calls
    no GObject entry point, however many symbols of GStreamer it looks up,
    has no table allocated; no signal is bound to a handler of the tracker,
    so SIGUSR1 and SIGUSR2 keep the action the host gave them; nothing is
    registered with [atexit]; the environment keeps [LD_PRELOAD]; and no
    signal and no exit prints anything. *)
Theorem gst_alone_sets_nothing_up (l : Linker) (host : World)
    (evs : list process_event) (env : gmap string string)
    (d : signum -> sighandler) :
  (forall sig, tracker_handler (d sig) = false) ->
  forallb (fun ev => negb (is_gobject_call ev)) evs = true ->
  let p := process_run l host evs (fresh_process env d) in
  tables_allocated p = false
  /\ atexit_exiting p = 0
  /\ (forall sig, tracker_handler (dispositions p sig) = false)
  /\ environ p = env
  /\ tracker p = init_state.
Proof.
  intros Hd Hevs. cbn zeta.
  destruct (process_run_without_gobject l host env evs _ Hevs
              (fresh_process_uninitialised env d Hd))
    as [(Ha & _ & He & Hdisp & Henv) Htracker].
  done.
Qed.

Lemma gst_alone_sets_nothing_up_witness :
  let p := process_run example_linker default_world
             [P_get_gst_func "gst_buffer_new"; P_signal SIGUSR1;
              P_get_gst_func "gst_mini_object_ref"]
             (fresh_process example_environ (fun _ => Handler_host)) in
  tables_allocated p = false
  /\ environ p !! "LD_PRELOAD" = Some "libgobject-list.so".
Proof.
  intros p.
  pose proof (gst_alone_sets_nothing_up example_linker default_world
                [P_get_gst_func "gst_buffer_new"; P_signal SIGUSR1;
                 P_get_gst_func "gst_mini_object_ref"]
                example_environ (fun _ => Handler_host) (fun _ => eq_refl)
                eq_refl) as (Ha & _ & _ & Henv & _).
  split; [exact Ha|]. fold p in Henv. by rewrite Henv.
Defined.
